(** * Tile-window resolution and compositing of [server.js]

    A shallow embedding of the handler of [GET /api/tiles/:z/:x/:y]
    (server.js, lines 116-439): the coordinate transforms, the window
    resolver with its fixed-window fallback, the RGB interleave loop and
    the tile cache.

    Numbers.  JavaScript numbers are doubles.  The Web-Mercator formulas
    are embedded over the real numbers [R]; pixel coordinates, which are
    results of [Math.round], over [Z]; the fractional quantities of the
    resolver ([width * 0.5], [Math.min(width, height) / 10]) over the
    rationals [Q].  Non-finite doubles (NaN, Infinity) are outside the
    embedding.

    External collaborators (proj4, gdal band reads, the sharp codec) are
    Section variables returning [option]: [None] stands for a thrown
    exception, which the handler's [try]/[catch] turns into a call of
    [sendEmptyTile]. *)

From Stdlib Require Import Reals Psatz.
From Stdlib Require Import QArith Qround Qminmax Qpower.
From Stdlib Require Import ZArith Lia String.
From stdpp Require Import base list.

Local Open Scope Z_scope.

(** ** Shared data *)

(** [z], [x], [y] after [parseInt] (lines 140-142). *)
Record TileKey := mkTileKey { tz : Z; tx : Z; ty : Z }.

(** A pixel as the two-element array [[pixelX, pixelY]] of [projToPixel]. *)
Definition Pixel : Type := Z * Z.

(** The four corner pixels [nwPixel], [nePixel], [swPixel], [sePixel]. *)
Record Corners := mkCorners { nwPixel : Pixel; nePixel : Pixel; swPixel : Pixel; sePixel : Pixel }.

(** A read window [(x, y, width, height)] in raster pixel space. *)
Record PixelWindow := mkWindow { readX : Z; readY : Z; readWidth : Z; readHeight : Z }.

(** [Math.min(a, b, c, d)] and [Math.max(a, b, c, d)] on integers. *)
Definition min4 (a b c d : Z) : Z := Z.min (Z.min (Z.min a b) c) d.
Definition max4 (a b c d : Z) : Z := Z.max (Z.max (Z.max a b) c) d.

(** Lines 224-232: the bounding window of the four corner pixels. *)
Definition boundingWindow (c : Corners) : PixelWindow :=
  let minX := min4 (fst (nwPixel c)) (fst (nePixel c)) (fst (swPixel c)) (fst (sePixel c)) in
  let maxX := max4 (fst (nwPixel c)) (fst (nePixel c)) (fst (swPixel c)) (fst (sePixel c)) in
  let minY := min4 (snd (nwPixel c)) (snd (nePixel c)) (snd (swPixel c)) (snd (sePixel c)) in
  let maxY := max4 (snd (nwPixel c)) (snd (nePixel c)) (snd (swPixel c)) (snd (sePixel c)) in
  {| readX := minX; readY := minY; readWidth := maxX - minX; readHeight := maxY - minY |}.

(** ** Coordinate transform (lines 171-214), over the reals *)

Module Geo.
Local Open Scope R_scope.

Record LonLat := mkLonLat { lon : R; lat : R }.

(** [Math.pow(2, z)] for an integer [z]. *)
Definition pow2 (z : Z) : R := powerRZ 2 z.

(** Lines 171-177. *)
Definition tileToLatLon (x y z : Z) : LonLat :=
  let n := PI - 2 * PI * IZR y / pow2 z in
  {| lon := IZR x / pow2 z * 360 - 180;
     lat := 180 / PI * atan (0.5 * (exp n - exp (- n))) |}.

(** [Math.round]: the nearest integer, ties towards plus infinity. *)
Definition js_round (r : R) : Z := Int_part (r + / 2).

(** The four geotransform coefficients the handler uses (line 202);
    [skewX] and [skewY] are destructured but never read. *)
Record GeoTransform := mkGeoTransform
  { originX : R; pixelWidth : R; originY : R; pixelHeight : R }.

(** Lines 205-209. *)
Definition projToPixel (gt : GeoTransform) (projX projY : R) : Pixel :=
  let pixelX := js_round ((projX - originX gt) / pixelWidth gt) in
  let pixelY := js_round ((projY - originY gt) / pixelHeight gt) in
  (pixelX, pixelY).

Section Projection.
(** [proj4('EPSG:4326', tifProjection, [lon, lat])]; [None] when it throws. *)
Variable proj4 : R * R -> option (R * R).
Variable gt : GeoTransform.



End Projection.

End Geo.

(** ** Window resolver (lines 241-364) *)

(** [info.width] and [info.height], the raster size in pixels. *)
Record RasterInfo := mkRasterInfo { width : Z; height : Z }.

(** Lines 245-246: the guard in front of [Área fora dos limites]. *)
Definition outOfBounds (info : RasterInfo) (w : PixelWindow) : bool :=
  (readX w <? 0) || (readY w <? 0) ||
  (readX w >=? width info) || (readY w >=? height info) ||
  (readWidth w <=? 0) || (readHeight w <=? 0).

(** [a > b] and [a <= b] on fractional numbers. *)
Definition Qgtb (a b : Q) : bool := negb (Qle_bool a b).

(** Line 254: [readWidth > width * 0.5 || readHeight > height * 0.5]. *)
Definition tooLarge (info : RasterInfo) (w : PixelWindow) : bool :=
  Qgtb (inject_Z (readWidth w)) (inject_Z (width info) * (1 # 2)) ||
  Qgtb (inject_Z (readHeight w)) (inject_Z (height info) * (1 # 2)).

(** [Math.round] on a fractional number: ties go towards plus infinity. *)
Definition Math_round (q : Q) : Z := Qfloor (q + (1 # 2)).

(** The fractional window of lines 273-277. *)
Record FixedWindow := mkFixed
  { fixedReadX : Q; fixedReadY : Q; fixedReadWidth : Q; fixedReadHeight : Q }.

(** Line 273: [Math.min(width, height) / 10]. *)
Definition fixedSize (info : RasterInfo) : Q :=
  inject_Z (Z.min (width info) (height info)) / 10.

(** Lines 273-277. *)
Definition fixedWindow (info : RasterInfo) (centerPixel : Pixel) : FixedWindow :=
  let fx := Qmax 0 (inject_Z (fst centerPixel) - fixedSize info / 2) in
  let fy := Qmax 0 (inject_Z (snd centerPixel) - fixedSize info / 2) in
  {| fixedReadX := fx;
     fixedReadY := fy;
     fixedReadWidth := Qmin (inject_Z (width info) - fx) (fixedSize info);
     fixedReadHeight := Qmin (inject_Z (height info) - fy) (fixedSize info) |}.

(** Line 287: [fixedReadWidth <= 0 || fixedReadHeight <= 0]. *)
Definition fixedInvalid (f : FixedWindow) : bool :=
  Qle_bool (fixedReadWidth f) 0 || Qle_bool (fixedReadHeight f) 0.

(** Lines 292-295: the four [Math.round] calls. *)
Definition roundWindow (f : FixedWindow) : PixelWindow :=
  {| readX := Math_round (fixedReadX f);
     readY := Math_round (fixedReadY f);
     readWidth := Math_round (fixedReadWidth f);
     readHeight := Math_round (fixedReadHeight f) |}.

(** Lines 354-357. *)
Definition clampWindow (info : RasterInfo) (w : PixelWindow) : PixelWindow :=
  let adjustedReadX := Z.max 0 (readX w) in
  let adjustedReadY := Z.max 0 (readY w) in
  {| readX := adjustedReadX;
     readY := adjustedReadY;
     readWidth := Z.min (width info - adjustedReadX) (readWidth w);
     readHeight := Z.min (height info - adjustedReadY) (readHeight w) |}.

(** Line 360: [adjustedReadWidth <= 0 || adjustedReadHeight <= 0]. *)
Definition adjustedInvalid (w : PixelWindow) : bool :=
  (readWidth w <=? 0) || (readHeight w <=? 0).

(** The zoom from which the fixed-window method is tried (line 260). *)
Definition highZoom : Z := 14.

(** Which branch of the handler reads the raster. *)
Inductive Path := Clamped | FixedFallback.

(** Outcome of lines 224-364 once the corner pixels are known.
    [centerPixel] is the result of lines 263-270, which the source
    evaluates in the fixed-window branch only; [None] is a throw of
    proj4 there. *)
Inductive Resolution :=
| NoCoverage
| ReadWindow (p : Path) (w : PixelWindow).

Definition resolveWindow (info : RasterInfo) (z : Z) (c : Corners)
    (centerPixel : option Pixel) : Resolution :=
  let w := boundingWindow c in
  if outOfBounds info w then NoCoverage
  else if tooLarge info w then
    if highZoom <=? z then
      match centerPixel with
      | None => NoCoverage
      | Some cp =>
          let f := fixedWindow info cp in
          if fixedInvalid f then NoCoverage
          else ReadWindow FixedFallback (roundWindow f)
      end
    else NoCoverage
  else
    let adj := clampWindow info w in
    if adjustedInvalid adj then NoCoverage
    else ReadWindow Clamped adj.

(** The window invariant of the data model. *)
Definition validWindow (info : RasterInfo) (w : PixelWindow) : Prop :=
  0 <= readX w /\ 0 <= readY w /\ 0 < readWidth w /\ 0 < readHeight w /\
  readX w + readWidth w <= width info /\ readY w + readHeight w <= height info.

Definition validWindowb (info : RasterInfo) (w : PixelWindow) : bool :=
  (0 <=? readX w) && (0 <=? readY w) && (0 <? readWidth w) && (0 <? readHeight w) &&
  (readX w + readWidth w <=? width info) && (readY w + readHeight w <=? height info).

(** The window [[x, x+width) x [y, y+height)] shares no pixel with the
    raster rectangle [[0, width) x [0, height)]. *)
Definition entirelyOutside (info : RasterInfo) (w : PixelWindow) : Prop :=
  readX w + readWidth w <= 0 \/ width info <= readX w \/
  readY w + readHeight w <= 0 \/ height info <= readY w.

(** ** Pixel compositor (lines 298-311 and 374-387) *)

(** Storing a value in a [Buffer] cell: an integer is reduced modulo 256;
    [undefined] (an index past the end of the band array) is stored as 0. *)
Definition toUint8 (v : option Z) : Z :=
  match v with
  | Some s => s mod 256
  | None => 0
  end.

(** One iteration of the loop body, lines 384-386. *)
Definition writePixel (data1 data2 data3 : list Z) (rgbData : list Z) (i : nat) : list Z :=
  <[(i * 3 + 2)%nat := toUint8 (data3 !! i)]>
    (<[(i * 3 + 1)%nat := toUint8 (data2 !! i)]>
       (<[(i * 3)%nat := toUint8 (data1 !! i)]> rgbData)).

(** Lines 382-387 (and 306-311): [Buffer.alloc] zero-fills; the loop runs
    over [0 <= i < w * h]. *)
Definition interleaveRGB (w h : Z) (data1 data2 data3 : list Z) : list Z :=
  fold_left (writePixel data1 data2 data3)
            (seq 0 (Z.to_nat (w * h)))
            (replicate (Z.to_nat (w * h * 3)) 0).

(** The three cells the loop body (lines 384-386) writes for pixel [i],
    as a list. *)
Definition pixelBytes (data1 data2 data3 : list Z) (i : nat) : list Z :=
  [toUint8 (data1 !! i); toUint8 (data2 !! i); toUint8 (data3 !! i)].

(** ** Responses *)

(** [tileSize] (line 120). *)
Definition tileSize : Z := 256.

(** An image buffer handed to [res.send].  [Placeholder w h] is the PNG
    of the [w] x [h], four-channel, alpha-0 image [sharp({create: ...})]
    builds (lines 125-134).  [Tile w h png] is the PNG the codec returns
    for [resize(w, h, {fit: 'fill'})], with its bytes [png]. *)
Inductive Body :=
| Placeholder (w h : Z)
| Tile (w h : Z) (png : list Z).

Inductive CacheTag := HIT | MISS.

(** What the client receives.  The handler never calls [res.status], so
    every [res.send] goes out with Express's default status 200. *)
Record Response := mkResponse
  { status : Z; contentType : string; xCache : option CacheTag; body : Body }.

(** Lines 123-137. *)
Definition sendEmptyTile : Response :=
  {| status := 200; contentType := "image/png"; xCache := None;
     body := Placeholder tileSize tileSize |}.

(** Lines 161-163 and 342-344, 424-426. *)
Definition sendTile (tag : CacheTag) (tile : Body) : Response :=
  {| status := 200; contentType := "image/png"; xCache := Some tag; body := tile |}.

(** ** Tile cache (line 117): a JavaScript [Map], which iterates its
    keys in insertion order *)

#[global] Instance TileKey_eq_dec : EqDecision TileKey.
Proof. solve_decision. Defined.

(** The cache key is the string [`${z}_${x}_${y}`] (line 158); two
    integer triples give the same string only when they are equal, so
    the triple itself is the key. *)
Definition TileCache : Type := list (TileKey * Body).

Module TileMap.

(** [Map.prototype.get]. *)
Fixpoint get (c : TileCache) (k : TileKey) : option Body :=
  match c with
  | [] => None
  | (k', v) :: c' => if decide (k' = k) then Some v else get c' k
  end.

(** [Map.prototype.has]. *)
Definition has (c : TileCache) (k : TileKey) : bool :=
  match get c k with Some _ => true | None => false end.

(** [Map.prototype.set]: an existing key keeps its place in the
    iteration order, a new key goes last. *)
Fixpoint set (c : TileCache) (k : TileKey) (v : Body) : TileCache :=
  match c with
  | [] => [(k, v)]
  | (k', v') :: c' =>
      if decide (k' = k) then (k', v) :: c' else (k', v') :: set c' k v
  end.

(** [Map.prototype.delete]. *)
Fixpoint delete (c : TileCache) (k : TileKey) : TileCache :=
  match c with
  | [] => []
  | (k', v') :: c' =>
      if decide (k' = k) then c' else (k', v') :: delete c' k
  end.

(** [map.size]. *)
Definition size (c : TileCache) : Z := Z.of_nat (length c).

(** [map.keys().next().value]. *)
Definition firstKey (c : TileCache) : option TileKey :=
  match c with
  | [] => None
  | (k, _) :: _ => Some k
  end.

End TileMap.

(** Lines 418-421. *)
Definition evictOldest (c : TileCache) : TileCache :=
  if 1000 <? TileMap.size c then
    match TileMap.firstKey c with
    | Some firstKey => TileMap.delete c firstKey
    | None => c
    end
  else c.

(** ** The request handler (lines 119-439) *)

Section Handler.

(** [initGdalDataset()] (line 147): [None] when it throws or leaves
    [dataset]/[info] unset. *)
Variable dataset : option RasterInfo.
(** Lines 180-214 and 263-270, e.g. [Geo.tileCornerPixels] and
    [Geo.tileCenterPixel]; [None] when proj4 throws. *)
Variable cornerPixels : TileKey -> option Corners.
Variable centerPixel : TileKey -> option Pixel.
(** [dataset.bands.get(i).pixels.read(x, y, w, h)]; [None] when gdal
    throws. *)
Variable readBand : Z -> PixelWindow -> option (list Z).
(** The sharp pipeline of lines 390-412 on a raw RGB buffer of the
    given width and height; [None] when it throws. *)
Variable sharpEncode : list Z -> Z -> Z -> option (list Z).

(** Lines 374-412 (and 298-336): read three bands, interleave, encode. *)
Definition renderTile (w : PixelWindow) : option Body :=
  data1 ← readBand 1 w;
  data2 ← readBand 2 w;
  data3 ← readBand 3 w;
  let rgbData := interleaveRGB (readWidth w) (readHeight w) data1 data2 data3 in
  png ← sharpEncode rgbData (readWidth w) (readHeight w);
  Some (Tile tileSize tileSize png).

(** Lines 339 and 415-421: the fixed-window branch stores the tile and
    nothing more; the clamped branch stores it and then trims. *)
Definition storeTile (p : Path) (c : TileCache) (k : TileKey) (tile : Body) : TileCache :=
  match p with
  | FixedFallback => TileMap.set c k tile
  | Clamped => evictOldest (TileMap.set c k tile)
  end.

(** One request, run to completion against the cache [c]. *)
Definition handleTile (c : TileCache) (k : TileKey) : Response * TileCache :=
  match dataset with
  | None => (sendEmptyTile, c)
  | Some info =>
      if TileMap.has c k then
        match TileMap.get c k with
        | Some cachedTile => (sendTile HIT cachedTile, c)
        | None => (sendEmptyTile, c) (* not reached: [has] is true *)
        end
      else
        match cornerPixels k with
        | None => (sendEmptyTile, c)
        | Some corners =>
            match resolveWindow info (tz k) corners (centerPixel k) with
            | NoCoverage => (sendEmptyTile, c)
            | ReadWindow p w =>
                match renderTile w with
                | None => (sendEmptyTile, c)
                | Some tileBuffer =>
                    (sendTile MISS tileBuffer, storeTile p c k tileBuffer)
                end
            end
        end
  end.

(** A sequence of requests, each served before the next arrives. *)
Fixpoint serve (c : TileCache) (ks : list TileKey) : list Response * TileCache :=
  match ks with
  | [] => ([], c)
  | k :: ks' =>
      let (r, c1) := handleTile c k in
      let (rs, c2) := serve c1 ks' in
      (r :: rs, c2)
  end.

End Handler.


(** ** Concrete collaborators, used to run the handler *)

Module Demo.

(** A band read that succeeds on windows inside the raster, with the
    constant sample [10 * band], and fails elsewhere. *)
Definition readBand (info : RasterInfo) (band : Z) (w : PixelWindow) : option (list Z) :=
  if validWindowb info w
  then Some (replicate (Z.to_nat (readWidth w * readHeight w)) (10 * band))
  else None.

(** A codec that accepts any raw image with a positive size. *)
Definition sharpEncode (rgbData : list Z) (w h : Z) : option (list Z) :=
  if (0 <? w) && (0 <? h) then Some rgbData else None.

(** Every tile has the same corner pixels and the same centre pixel. *)
Definition constCorners (c : Corners) (k : TileKey) : option Corners := Some c.
Definition constCenter (p : Pixel) (k : TileKey) : option Pixel := Some p.

Definition square (x0 y0 x1 y1 : Z) : Corners :=
  mkCorners (x0, y0) (x1, y0) (x0, y1) (x1, y1).

(** The handler over a raster of [w] x [h] pixels on which every tile
    covers the pixel square [corners] with centre [center]. *)
Definition handler (w h : Z) (corners : Corners) (center : Pixel) :=
  handleTile (Some (mkRasterInfo w h)) (constCorners corners) (constCenter center)
             (readBand (mkRasterInfo w h)) sharpEncode.

Definition server (w h : Z) (corners : Corners) (center : Pixel) :=
  serve (Some (mkRasterInfo w h)) (constCorners corners) (constCenter center)
        (readBand (mkRasterInfo w h)) sharpEncode.

(** A raster of 100 x 100 pixels and a 10 x 10 tile window that hangs
    one pixel over its left edge. *)
Definition raster100 : RasterInfo := mkRasterInfo 100 100.
Definition leftOverlap : Corners := square (-1) 0 9 10.

(** A raster of 1010 x 1010 pixels and a tile whose corner pixels span
    [404 .. 1616] in both directions, centred on pixel (1010, 1010). *)
Definition raster1010 : RasterInfo := mkRasterInfo 1010 1010.
Definition wideTile : Corners := square 404 404 1616 1616.

(** A raster of 4 x 4 pixels covered by one tile. *)
Definition raster4 : RasterInfo := mkRasterInfo 4 4.
Definition wholeRaster4 : Corners := square 0 0 3 3.

(** A raster of 1000 x 1000 pixels and a tile that starts at pixel
    (900, 900) and extends to (2100, 2100), centred on (1500, 1500). *)
Definition raster1000 : RasterInfo := mkRasterInfo 1000 1000.
Definition cornerTile : Corners := square 900 900 2100 2100.

(** The requests [14/0/0], [14/1/0], ..., [14/(n-1)/0]. *)
Definition row (n : nat) : list TileKey :=
  map (fun i => mkTileKey 14 (Z.of_nat i) 0) (seq 0 n).

End Demo.

(** ** The tile index of a map position (page script, lines 659-660) *)

Module Client.
Local Open Scope R_scope.

(** [Math.floor]. *)
Definition Math_floor (r : R) : Z := Int_part r.

(** Line 659. *)
Definition tileX (lng : R) (zoom : Z) : Z :=
  Math_floor ((lng + 180) / 360 * Geo.pow2 zoom).

(** Line 660; [Math.log] is the natural logarithm.  Over the reals the
    floored quantity is an exact integer on a row's north edge; the
    double computed there may fall just below it, so the edges
    themselves are left out of what is proved of [tileY]. *)
Definition tileY (lat : R) (zoom : Z) : Z :=
  Math_floor ((1 - ln (tan (lat * PI / 180) + 1 / cos (lat * PI / 180)) / PI) / 2
              * Geo.pow2 zoom).

End Client.

(** ** Dataset initialisation (lines 13-14 and 26-97) *)

Module Init.
Local Open Scope R_scope.

(** [dataset.srs]: absent, or an object whose [toWKT()] returns a
    string or throws. *)
Inductive Srs := NoSrs | Wkt (wkt : string) | WktFails.

(** What [gdal.open] returns, as far as the server reads it:
    [rasterSize.x], [rasterSize.y], the six geotransform coefficients
    ([None]: the raster has no geotransform and [dataset.geoTransform]
    is [null]) and the spatial reference. *)
Record Dataset := mkDataset
  { rasterSizeX : Z; rasterSizeY : Z;
    geoTransform : option (R * R * R * R * R * R);
    srs : Srs }.

(** The file [data/Iturama-2019.tif]: not there, there but rejected by
    [gdal.open], or opened. *)
Inductive TifFile := Missing | Unreadable | Opens (ds : Dataset).

(** The fallback projection string of lines 37 and 168. *)
Definition utm22s : string :=
  "+proj=utm +zone=22 +south +ellps=GRS80 +towgs84=0,0,0,0,0,0,0 +units=m +no_defs".

(** Lines 26-38. *)
Definition getSafeProjection (ds : Dataset) : option string :=
  match srs ds with
  | NoSrs => None
  | Wkt wkt => Some wkt
  | WktFails => Some utm22s
  end.

(** Line 168: [info.projection || '+proj=utm ...']; [null] and the empty
    string are falsy. *)
Definition tifProjection (projection : option string) : string :=
  match projection with
  | None => utm22s
  | Some EmptyString => utm22s
  | Some p => p
  end.

Record Bounds := mkBounds { minX : R; minY : R; maxX : R; maxY : R }.

(** [imageInfo] (lines 62-78). *)
Record ImageInfo := mkImageInfo
  { width : Z; height : Z;
    originX : R; originY : R; pixelWidth : R; pixelHeight : R;
    skewX : R; skewY : R;
    projection : option string;
    bounds : Bounds }.

(** Lines 49-78, for a dataset with a geotransform. *)
Definition makeInfo (ds : Dataset) (gt : R * R * R * R * R * R) : ImageInfo :=
  let '(originX, pixelWidth, skewX, originY, skewY, pixelHeight) := gt in
  let width := rasterSizeX ds in
  let height := rasterSizeY ds in
  {| width := width; height := height;
     originX := originX; originY := originY;
     pixelWidth := pixelWidth; pixelHeight := pixelHeight;
     skewX := skewX; skewY := skewY;
     projection := getSafeProjection ds;
     bounds := {| minX := originX;
                  minY := originY + IZR height * pixelHeight;
                  maxX := originX + IZR width * pixelWidth;
                  maxY := originY |} |}.

(** The module-level variables [gdalDataset] and [imageInfo]. *)
Record Globals := mkGlobals
  { gdalDataset : option Dataset; imageInfo : option ImageInfo }.

Definition start : Globals := {| gdalDataset := None; imageInfo := None |}.

(** Lines 41-97.  The first component is the returned
    [{ dataset, info }], [None] when the call throws.  [gdalDataset] is
    assigned at line 48, before line 51 destructures the geotransform:
    when that is [null] the call throws with [gdalDataset] set and
    [imageInfo] still [null]. *)
Definition initGdalDataset (tif : TifFile) (g : Globals)
    : option (Dataset * option ImageInfo) * Globals :=
  match gdalDataset g with
  | Some ds => (Some (ds, imageInfo g), g)
  | None =>
      match tif with
      | Missing => (None, g)
      | Unreadable => (None, g)
      | Opens ds =>
          match geoTransform ds with
          | None => (None, {| gdalDataset := Some ds; imageInfo := imageInfo g |})
          | Some gt =>
              let info := makeInfo ds gt in
              (Some (ds, Some info), {| gdalDataset := Some ds; imageInfo := Some info |})
          end
      end
  end.

(** The geotransform the tile handler reads back from the dataset
    (line 202). *)
Definition handlerTransform (ds : Dataset) : option Geo.GeoTransform :=
  match geoTransform ds with
  | Some (originX, pixelWidth, _, originY, _, pixelHeight) =>
      Some (Geo.mkGeoTransform originX pixelWidth originY pixelHeight)
  | None => None
  end.

End Init.

(** [info.width] and [info.height] as the resolver reads them. *)
Definition rasterOf (info : Init.ImageInfo) : RasterInfo :=
  mkRasterInfo (Init.width info) (Init.height info).

(** Lines 147-153: what the tile handler keeps of the result of
    [initGdalDataset()]; a throw, a missing dataset and a missing info
    all lead to [sendEmptyTile]. *)
Definition handlerDataset (r : option (Init.Dataset * option Init.ImageInfo))
    : option RasterInfo :=
  match r with
  | Some (_, Some info) => Some (rasterOf info)
  | _ => None
  end.

(** ** The other routes *)

(** The reply of [GET /api/tif-info] (lines 106-114): the info as JSON,
    [null] included, or status 500 with the error message. *)
Inductive InfoReply :=
| InfoJson (info : option Init.ImageInfo)
| InfoError.

Definition tifInfoRoute (tif : Init.TifFile) (g : Init.Globals) : InfoReply * Init.Globals :=
  match Init.initGdalDataset tif g with
  | (Some (_, info), g') => (InfoJson info, g')
  | (None, g') => (InfoError, g')
  end.

(** Lines 449-452: the size of the preview. *)
Definition maxPreviewSize : Z := 1024.

Definition previewSize (width height : Z) : Z * Z :=
  let scale := Qmin (inject_Z maxPreviewSize / inject_Z width)
                    (inject_Z maxPreviewSize / inject_Z height) in
  (Math_round (inject_Z width * scale), Math_round (inject_Z height * scale)).

(** The reply of [GET /api/preview] (lines 442-499): status 200 with the
    PNG the codec returns for [resize(previewWidth, previewHeight,
    {fit: 'inside'})], or status 500 with a JSON error. *)
Inductive PreviewReply :=
| PreviewPng (previewWidth previewHeight : Z) (png : list Z)
| PreviewError.

Section Routes.

Variable cornerPixels : TileKey -> option Corners.
Variable centerPixel : TileKey -> option Pixel.
Variable readBand : Z -> PixelWindow -> option (list Z).
Variable sharpEncode : list Z -> Z -> Z -> option (list Z).
(** The sharp pipeline of lines 469-490: raw buffer, its width and
    height, the preview width and height. *)
Variable sharpPreview : list Z -> Z -> Z -> Z -> Z -> option (list Z).

(** Lines 444-493 once [initGdalDataset()] has returned [info]. *)
Definition renderPreview (info : RasterInfo) : option PreviewReply :=
  let '(previewWidth, previewHeight) := previewSize (width info) (height info) in
  let whole := mkWindow 0 0 (width info) (height info) in
  data1 ← readBand 1 whole;
  data2 ← readBand 2 whole;
  data3 ← readBand 3 whole;
  let rgbData := interleaveRGB (width info) (height info) data1 data2 data3 in
  png ← sharpPreview rgbData (width info) (height info) previewWidth previewHeight;
  Some (PreviewPng previewWidth previewHeight png).

(** [GET /api/preview]: reading [info.width] of a [null] info throws,
    like everything else inside the [try]. *)
Definition previewRoute (tif : Init.TifFile) (g : Init.Globals) : PreviewReply * Init.Globals :=
  match Init.initGdalDataset tif g with
  | (Some (_, Some info), g') =>
      (match renderPreview (rasterOf info) with
       | Some reply => reply
       | None => PreviewError
       end, g')
  | (_, g') => (PreviewError, g')
  end.

(** [GET /api/tiles/:z/:x/:y] with its call of [initGdalDataset()]. *)
Definition tileRoute (tif : Init.TifFile) (g : Init.Globals) (c : TileCache) (k : TileKey)
    : Response * TileCache * Init.Globals :=
  let (r, g') := Init.initGdalDataset tif g in
  (handleTile (handlerDataset r) cornerPixels centerPixel readBand sharpEncode c k, g').

End Routes.

(** ** The earlier tile handler (server.js.bak, lines 29-120) *)

Module Legacy.

(** Line 49: [Math.pow(2, z_int)]. *)
Definition numTiles (z : Z) : Q := (2 ^ z)%Q.

(** Lines 52-57: the pixel at which the tile's window starts. *)
Definition tileOrigin (width height : Z) (k : TileKey) : Pixel :=
  let tileXRatio := (inject_Z (tx k) / numTiles (tz k))%Q in
  let tileYRatio := (inject_Z (ty k) / numTiles (tz k))%Q in
  (Qfloor (tileXRatio * inject_Z width), Qfloor (tileYRatio * inject_Z height)).

(** Line 60: the test in front of the black tile. *)
Definition outsideRaster (width height : Z) (p : Pixel) : bool :=
  (fst p <? 0) || (snd p <? 0) || (fst p >=? width) || (snd p >=? height).

(** Lines 95-97: [Math.min(255, Math.max(0, v))]; an [undefined]
    sample gives NaN, here [None]. *)
Definition saturate (v : option Z) : option Z :=
  match v with
  | Some s => Some (Z.min 255 (Z.max 0 s))
  | None => None
  end.

Definition tileSizeN : nat := Z.to_nat tileSize.

(** The loop body, lines 90-101. *)
Definition writePixel (data1 data2 data3 : list Z) (rgbData : list Z) (i : nat) : list Z :=
  let row := (i / tileSizeN)%nat in
  let col := (i mod tileSizeN)%nat in
  let idx := (row * tileSizeN + col)%nat in
  let r := saturate (data1 !! idx) in
  let g := saturate (data2 !! idx) in
  let b := saturate (data3 !! idx) in
  <[(i * 3 + 2)%nat := toUint8 b]>
    (<[(i * 3 + 1)%nat := toUint8 g]>
       (<[(i * 3)%nat := toUint8 r]> rgbData)).

(** Lines 88-102. *)
Definition interleave (data1 data2 data3 : list Z) : list Z :=
  fold_left (writePixel data1 data2 data3)
            (seq 0 (Z.to_nat (tileSize * tileSize)))
            (replicate (Z.to_nat (tileSize * tileSize * 3)) 0).

End Legacy.

(** Two datasets to run the initialisation on: a georeferenced raster
    of 1000 x 800 pixels of 2 m, and one without geotransform. *)
Module DemoData.

Definition utmTransform : R * R * R * R * R * R :=
  (500000, 2, 0, 7800000, 0, -2)%R.

Definition geoRaster : Init.Dataset :=
  Init.mkDataset 1000 800 (Some utmTransform) (Init.Wkt "PROJCS").

Definition bareRaster : Init.Dataset :=
  Init.mkDataset 1000 800 None Init.NoSrs.

Definition noPreview (rgbData : list Z) (w h pw ph : Z) : option (list Z) := None.

End DemoData.

(** [lra] on [Q] knows products with constants, not quotients. *)
Ltac qdiv :=
  unfold Qdiv in *;
  change (/ 2)%Q with (1 # 2)%Q in *;
  change (/ 10)%Q with (1 # 10)%Q in *.

(** * Properties *)

(** ** The resolver *)

Lemma Qgtb_true (a b : Q) : Qgtb a b = true <-> (b < a)%Q.
Proof.
  unfold Qgtb. rewrite negb_true_iff, <- not_true_iff_false, Qle_bool_iff.
  split; [apply Qnot_le_lt | apply Qlt_not_le].
Qed.

Lemma Qle_bool_false (a b : Q) : Qle_bool a b = false <-> (b < a)%Q.
Proof.
  rewrite <- not_true_iff_false, Qle_bool_iff.
  split; [apply Qnot_le_lt | apply Qlt_not_le].
Qed.

Lemma outOfBounds_true (info : RasterInfo) (w : PixelWindow) :
  outOfBounds info w = true <->
  readX w < 0 \/ readY w < 0 \/ width info <= readX w \/ height info <= readY w \/
  readWidth w <= 0 \/ readHeight w <= 0.
Proof.
  unfold outOfBounds. rewrite !orb_true_iff.
  rewrite !Z.ltb_lt, !Z.geb_le, !Z.leb_le. tauto.
Qed.

Lemma outOfBounds_false (info : RasterInfo) (w : PixelWindow) :
  outOfBounds info w = false <->
  0 <= readX w < width info /\ 0 <= readY w < height info /\
  0 < readWidth w /\ 0 < readHeight w.
Proof.
  rewrite <- not_true_iff_false, outOfBounds_true. lia.
Qed.

Lemma tooLarge_true (info : RasterInfo) (w : PixelWindow) :
  tooLarge info w = true <->
  width info < 2 * readWidth w \/ height info < 2 * readHeight w.
Proof.
  unfold tooLarge. rewrite orb_true_iff, !Qgtb_true.
  unfold Qlt, Qmult, inject_Z; simpl. lia.
Qed.

Lemma tooLarge_false (info : RasterInfo) (w : PixelWindow) :
  tooLarge info w = false <->
  2 * readWidth w <= width info /\ 2 * readHeight w <= height info.
Proof.
  rewrite <- not_true_iff_false, tooLarge_true. lia.
Qed.

(** The clamped branch hands over a window that satisfies the window
    invariant. *)
Lemma clamped_window_valid (info : RasterInfo) (z : Z) (c : Corners)
    (cp : option Pixel) (w : PixelWindow) :
  resolveWindow info z c cp = ReadWindow Clamped w -> validWindow info w.
Proof.
  unfold resolveWindow.
  destruct (outOfBounds info (boundingWindow c)) eqn:Hout; [discriminate|].
  destruct (tooLarge info (boundingWindow c)).
  { destruct (highZoom <=? z); [|discriminate].
    destruct cp; [|discriminate].
    destruct (fixedInvalid _); discriminate. }
  destruct (adjustedInvalid _) eqn:Hadj; [discriminate|].
  intros [= <-].
  apply outOfBounds_false in Hout.
  unfold validWindow, clampWindow; cbn [readX readY readWidth readHeight]. lia.
Qed.

(** Before the four [Math.round] calls, the fixed window that passed the
    check of line 287 lies inside the raster. *)
Lemma fixed_window_inside_before_rounding (info : RasterInfo) (cp : Pixel) :
  fixedInvalid (fixedWindow info cp) = false ->
  let f := fixedWindow info cp in
  (0 <= fixedReadX f /\ 0 <= fixedReadY f /\
   0 < fixedReadWidth f /\ 0 < fixedReadHeight f /\
   fixedReadX f + fixedReadWidth f <= inject_Z (width info) /\
   fixedReadY f + fixedReadHeight f <= inject_Z (height info))%Q.
Proof.
  unfold fixedInvalid. rewrite orb_false_iff, !Qle_bool_false.
  intros [Hw Hh]. cbv zeta. revert Hw Hh.
  unfold fixedWindow; cbn [fixedReadX fixedReadY fixedReadWidth fixedReadHeight].
  set (s := fixedSize info).
  set (fx := Qmax 0 _). set (fy := Qmax 0 _).
  intros Hw Hh.
  pose proof (Q.le_max_l 0 (inject_Z (fst cp) - s / 2)) as Hx. fold fx in Hx.
  pose proof (Q.le_max_l 0 (inject_Z (snd cp) - s / 2)) as Hy. fold fy in Hy.
  pose proof (Q.le_min_l (inject_Z (width info) - fx) s) as Hwl.
  pose proof (Q.le_min_l (inject_Z (height info) - fy) s) as Hhl.
  repeat split; try assumption; lra.
Qed.

Lemma fixedSize_pos (info : RasterInfo) :
  0 < width info -> 0 < height info -> (0 < fixedSize info)%Q.
Proof.
  intros Hw Hh. unfold fixedSize.
  assert (0 < inject_Z (Z.min (width info) (height info)))%Q as Hm.
  { rewrite <- (Zlt_Qlt 0). lia. }
  qdiv. lra.
Qed.

(** When is the fixed window rejected at line 287. *)
Lemma fixedInvalid_true (info : RasterInfo) (cp : Pixel) :
  0 < width info -> 0 < height info ->
  fixedInvalid (fixedWindow info cp) = true <->
  (inject_Z (width info) + fixedSize info / 2 <= inject_Z (fst cp) \/
   inject_Z (height info) + fixedSize info / 2 <= inject_Z (snd cp))%Q.
Proof.
  intros Hw Hh.
  pose proof (fixedSize_pos info Hw Hh) as Hs.
  assert (0 < inject_Z (width info))%Q as HW by (rewrite <- (Zlt_Qlt 0); lia).
  assert (0 < inject_Z (height info))%Q as HH by (rewrite <- (Zlt_Qlt 0); lia).
  unfold fixedInvalid, fixedWindow.
  cbn [fixedReadX fixedReadY fixedReadWidth fixedReadHeight].
  rewrite orb_true_iff, !Qle_bool_iff.
  set (s := fixedSize info) in *. qdiv.
  destruct (Q.max_spec 0 (inject_Z (fst cp) - s * (1 # 2))) as [[Hx1 Hx2]|[Hx1 Hx2]];
  destruct (Q.max_spec 0 (inject_Z (snd cp) - s * (1 # 2))) as [[Hy1 Hy2]|[Hy1 Hy2]];
  rewrite Hx2, Hy2;
  destruct (Q.min_spec (inject_Z (width info) - (inject_Z (fst cp) - s * (1 # 2))) s)
    as [[Ha1 Ha2]|[Ha1 Ha2]];
  destruct (Q.min_spec (inject_Z (width info) - 0) s) as [[Hb1 Hb2]|[Hb1 Hb2]];
  destruct (Q.min_spec (inject_Z (height info) - (inject_Z (snd cp) - s * (1 # 2))) s)
    as [[Hc1 Hc2]|[Hc1 Hc2]];
  destruct (Q.min_spec (inject_Z (height info) - 0) s) as [[Hd1 Hd2]|[Hd1 Hd2]];
  rewrite ?Ha2, ?Hb2, ?Hc2, ?Hd2; split; intros [H|H]; lra.
Qed.

(** Away from the raster's edges the fixed window is the square of side
    [fixedSize] centred on the centre pixel. *)
Lemma fixedWindow_centered (info : RasterInfo) (cp : Pixel) :
  (fixedSize info / 2 <= inject_Z (fst cp))%Q ->
  (inject_Z (fst cp) + fixedSize info / 2 <= inject_Z (width info))%Q ->
  (fixedSize info / 2 <= inject_Z (snd cp))%Q ->
  (inject_Z (snd cp) + fixedSize info / 2 <= inject_Z (height info))%Q ->
  let f := fixedWindow info cp in
  (fixedReadX f + fixedSize info / 2 == inject_Z (fst cp) /\
   fixedReadY f + fixedSize info / 2 == inject_Z (snd cp) /\
   fixedReadWidth f == fixedSize info /\
   fixedReadHeight f == fixedSize info)%Q.
Proof.
  intros H1 H2 H3 H4. cbv zeta. unfold fixedWindow.
  cbn [fixedReadX fixedReadY fixedReadWidth fixedReadHeight].
  set (s := fixedSize info) in *. qdiv.
  assert (Qmax 0 (inject_Z (fst cp) - s * (1 # 2)) == inject_Z (fst cp) - s * (1 # 2))%Q as Ex
    by (apply Q.max_r; lra).
  assert (Qmax 0 (inject_Z (snd cp) - s * (1 # 2)) == inject_Z (snd cp) - s * (1 # 2))%Q as Ey
    by (apply Q.max_r; lra).
  rewrite Ex, Ey.
  assert (Qmin (inject_Z (width info) - (inject_Z (fst cp) - s * (1 # 2))) s == s)%Q as Ew
    by (apply Q.min_r; lra).
  assert (Qmin (inject_Z (height info) - (inject_Z (snd cp) - s * (1 # 2))) s == s)%Q as Eh
    by (apply Q.min_r; lra).
  rewrite Ew, Eh. repeat split; lra.
Qed.

(** C1 (counterexample).  On a 100 x 100 raster the window
    [(x, y, width, height) = (-1, 0, 10, 10)] overlaps the raster and has
    a positive size, yet the guard of lines 245-246 rejects it: the guard
    is not equivalent to "entirely outside, or width <= 0, or
    height <= 0". *)
Lemma C1_partially_overlapping_window_is_rejected :
  ~ (outOfBounds Demo.raster100 (boundingWindow Demo.leftOverlap) = true <->
     entirelyOutside Demo.raster100 (boundingWindow Demo.leftOverlap) \/
     readWidth (boundingWindow Demo.leftOverlap) <= 0 \/
     readHeight (boundingWindow Demo.leftOverlap) <= 0).
Proof.
  intros [H _].
  assert (outOfBounds Demo.raster100 (boundingWindow Demo.leftOverlap) = true) as Hg
    by reflexivity.
  specialize (H Hg).
  unfold entirelyOutside in H. vm_compute in H.
  destruct H as [[H|[H|[H|H]]]|[H|H]]; apply H; reflexivity.
Qed.

(** C1 (amended).  The resolver reports NoCoverage at the out-of-bounds
    step exactly when the window's top-left pixel [(x, y)] lies outside
    [[0, rasterWidth) x [0, rasterHeight)] or width <= 0 or height <= 0.
    Hence every window entirely outside the raster is rejected, and so
    is every window with [x < 0] or [y < 0], whether or not it overlaps
    the raster; a window that starts inside the raster and overruns its
    right or bottom edge passes this step. *)
Theorem C1_out_of_bounds_step (info : RasterInfo) (z : Z) (c : Corners) (cp : option Pixel) :
  let w := boundingWindow c in
  (outOfBounds info w = true <->
     ~ (0 <= readX w < width info /\ 0 <= readY w < height info) \/
     readWidth w <= 0 \/ readHeight w <= 0) /\
  (outOfBounds info w = true -> resolveWindow info z c cp = NoCoverage) /\
  (entirelyOutside info w -> outOfBounds info w = true) /\
  (readX w < 0 \/ readY w < 0 -> outOfBounds info w = true) /\
  (0 <= readX w < width info -> 0 <= readY w < height info ->
   0 < readWidth w -> 0 < readHeight w -> outOfBounds info w = false).
Proof.
  cbv zeta. set (w := boundingWindow c).
  repeat split.
  - rewrite outOfBounds_true. lia.
  - rewrite outOfBounds_true. lia.
  - intros H. unfold resolveWindow. fold w. now rewrite H.
  - unfold entirelyOutside. rewrite outOfBounds_true. lia.
  - rewrite outOfBounds_true. lia.
  - intros. apply outOfBounds_false. lia.
Qed.

(** C1 (witness).  The window (95, 0, 10, 10)
    on the 100 x 100 raster overruns the right edge and is not rejected. *)
Lemma C1_out_of_bounds_step_witness :
  outOfBounds Demo.raster100 (boundingWindow (Demo.square 95 0 105 10)) = false.
Proof.
  apply (C1_out_of_bounds_step Demo.raster100 12 (Demo.square 95 0 105 10) None);
    vm_compute; intuition congruence.
Defined.

(** C4 (the code at the failing inputs).  At zoom 14, on the
    1010 x 1010 raster, the tile with corner pixels 404 .. 1616 and
    centre pixel (1010, 1010) takes the fixed-window branch: the
    fractional window (959.5, 959.5, 50.5, 50.5) passes the check of
    line 287 and is rounded to (960, 960, 51, 51), which overruns the
    raster by one pixel.  On the 4 x 4 raster the fractional window
    (1.8, 1.8, 0.4, 0.4) is rounded to (2, 2, 0, 0), an empty window.
    Either window is handed to the band reads. *)
Theorem C4_rounded_fallback_window_is_invalid :
  resolveWindow Demo.raster1010 14 Demo.wideTile (Some (1010, 1010))
    = ReadWindow FixedFallback (mkWindow 960 960 51 51) /\
  ~ validWindow Demo.raster1010 (mkWindow 960 960 51 51) /\
  resolveWindow Demo.raster4 14 Demo.wholeRaster4 (Some (2, 2))
    = ReadWindow FixedFallback (mkWindow 2 2 0 0) /\
  ~ validWindow Demo.raster4 (mkWindow 2 2 0 0).
Proof.
  repeat split; try reflexivity; unfold validWindow; vm_compute; intuition congruence.
Qed.

(** ** The handler *)

Section HandlerProperties.

Variable dataset : option RasterInfo.
Variable cornerPixels : TileKey -> option Corners.
Variable centerPixel : TileKey -> option Pixel.
Variable readBand : Z -> PixelWindow -> option (list Z).
Variable sharpEncode : list Z -> Z -> Z -> option (list Z).

#[local] Abbreviation handle := (handleTile dataset cornerPixels centerPixel readBand sharpEncode).
#[local] Abbreviation render := (renderTile readBand sharpEncode).

(** Every rendered tile has the standard size. *)
Lemma renderTile_size (w : PixelWindow) (tile : Body) :
  render w = Some tile -> exists png, tile = Tile tileSize tileSize png.
Proof.
  unfold renderTile. intros H.
  destruct (readBand 1 w) as [d1|]; [|discriminate].
  destruct (readBand 2 w) as [d2|]; [|discriminate].
  destruct (readBand 3 w) as [d3|]; [|discriminate].
  simpl in H.
  destruct (sharpEncode _ _ _) as [png|]; [|discriminate].
  simpl in H. injection H as <-. now exists png.
Qed.

(** The handler on a key that is not cached. *)
Lemma handleTile_uncached (info : RasterInfo) (c : TileCache) (k : TileKey) :
  dataset = Some info -> TileMap.has c k = false ->
  handle c k =
  match cornerPixels k with
  | None => (sendEmptyTile, c)
  | Some corners =>
      match resolveWindow info (tz k) corners (centerPixel k) with
      | NoCoverage => (sendEmptyTile, c)
      | ReadWindow p w =>
          match render w with
          | None => (sendEmptyTile, c)
          | Some tileBuffer => (sendTile MISS tileBuffer, storeTile p c k tileBuffer)
          end
      end
  end.
Proof. intros Hd Hh. unfold handleTile. now rewrite Hd, Hh. Qed.

(** The handler on a cached key. *)
Lemma handleTile_cached (info : RasterInfo) (c : TileCache) (k : TileKey) (tile : Body) :
  dataset = Some info -> TileMap.get c k = Some tile ->
  handle c k = (sendTile HIT tile, c).
Proof.
  intros Hd Hg. unfold handleTile, TileMap.has. now rewrite Hd, Hg.
Qed.

(** C3 (amended).  For a request whose bounding window passes the
    out-of-bounds step and exceeds 50% of the raster in width or
    height: below zoom 14 the answer is the empty tile; from zoom 14
    on the resolver takes the centre pixel [cp] and builds the window
    with origin [max(0, cp - side/2)] and extents
    [min(raster - origin, side)], [side = min(rasterWidth,
    rasterHeight)/10].  If the centre lies at least [side/2] beyond
    the raster's right or bottom edge that window has an extent <= 0
    and the answer is the empty tile.  Otherwise the rounded window is
    read, and when the band reads and the codec succeed the answer is
    a MISS carrying a tile of 256 x 256; when they fail it is the
    empty tile. *)
Theorem C3_oversize_window_policy (info : RasterInfo) (c : TileCache)
    (k : TileKey) (corners : Corners) :
  dataset = Some info ->
  TileMap.has c k = false ->
  cornerPixels k = Some corners ->
  outOfBounds info (boundingWindow corners) = false ->
  tooLarge info (boundingWindow corners) = true ->
  let r := fst (handle c k) in
  (tz k < 14 -> r = sendEmptyTile) /\
  (14 <= tz k -> forall cp : Pixel, centerPixel k = Some cp ->
     let f := fixedWindow info cp in
     (fixedReadX f == Qmax 0 (inject_Z (fst cp) - fixedSize info / 2))%Q /\
     (fixedReadY f == Qmax 0 (inject_Z (snd cp) - fixedSize info / 2))%Q /\
     (fixedReadWidth f == Qmin (inject_Z (width info) - fixedReadX f) (fixedSize info))%Q /\
     (fixedReadHeight f == Qmin (inject_Z (height info) - fixedReadY f) (fixedSize info))%Q /\
     (fixedInvalid f = true <->
        (inject_Z (width info) + fixedSize info / 2 <= inject_Z (fst cp) \/
         inject_Z (height info) + fixedSize info / 2 <= inject_Z (snd cp))%Q) /\
     (fixedInvalid f = true -> r = sendEmptyTile) /\
     (fixedInvalid f = false ->
        resolveWindow info (tz k) corners (Some cp)
          = ReadWindow FixedFallback (roundWindow f) /\
        match render (roundWindow f) with
        | Some tile =>
            r = sendTile MISS tile /\ exists png, tile = Tile 256 256 png
        | None => r = sendEmptyTile
        end)).
Proof.
  intros Hd Hh Hc Hout Hbig. cbv zeta.
  rewrite (handleTile_uncached info c k Hd Hh), Hc.
  unfold resolveWindow. rewrite Hout, Hbig. unfold highZoom.
  split.
  - intros Hz. apply Z.leb_gt in Hz. now rewrite Hz.
  - intros Hz cp Hcp. apply Z.leb_le in Hz. rewrite Hz, Hcp.
    apply outOfBounds_false in Hout.
    do 4 (split; [reflexivity|]).
    split; [apply fixedInvalid_true; lia|].
    split; intros Hinv; rewrite Hinv; [reflexivity|].
    split; [reflexivity|].
    destruct (render (roundWindow (fixedWindow info cp))) as [tile|] eqn:Hr.
    + split; [reflexivity|]. apply (renderTile_size _ _ Hr).
    + reflexivity.
Qed.

End HandlerProperties.

(** C3 (counterexample).  On the 1000 x 1000 raster, at zoom 14, the tile
    with corner pixels 900 .. 2100 has a bounding window (900, 900, 1200,
    1200): it passes the out-of-bounds step and is wider than half the
    raster.  Its centre pixel (1500, 1500) puts the fixed window past the
    raster, and the request is answered with the empty tile although
    every band read inside the raster and the codec would succeed. *)
Lemma C3_fallback_can_end_in_empty_tile :
  outOfBounds Demo.raster1000 (boundingWindow Demo.cornerTile) = false /\
  tooLarge Demo.raster1000 (boundingWindow Demo.cornerTile) = true /\
  Demo.handler 1000 1000 Demo.cornerTile (1500, 1500) [] (mkTileKey 14 0 0)
    = (sendEmptyTile, []) /\
  ~ (exists png,
       body (fst (Demo.handler 1000 1000 Demo.cornerTile (1500, 1500) []
                    (mkTileKey 14 0 0))) = Tile 256 256 png).
Proof.
  split; [reflexivity|]. split; [reflexivity|]. split; [reflexivity|].
  intros [png H]. vm_compute in H. discriminate H.
Qed.

(** C3 (witness).  The 100 x 100 raster, a
    tile over pixels 0 .. 60 centred on (30, 30), requested as 14/0/0. *)
Lemma C3_oversize_window_policy_witness :
  fst (Demo.handler 100 100 (Demo.square 0 0 60 60) (30, 30) [] (mkTileKey 14 0 0))
    = sendTile MISS (Tile 256 256 (concat (replicate 100 [10; 20; 30]))).
Proof.
  pose proof (C3_oversize_window_policy
                (Some Demo.raster100)
                (Demo.constCorners (Demo.square 0 0 60 60))
                (Demo.constCenter (30, 30))
                (Demo.readBand Demo.raster100) Demo.sharpEncode
                Demo.raster100 [] (mkTileKey 14 0 0) (Demo.square 0 0 60 60)
                eq_refl eq_refl eq_refl eq_refl eq_refl) as [_ H].
  specialize (H ltac:(vm_compute; congruence) (30, 30) eq_refl).
  cbv zeta in H. destruct H as (_ & _ & _ & _ & _ & _ & H).
  destruct (H eq_refl) as [_ Hr].
  vm_compute in Hr. destruct Hr as [Hr _]. exact Hr.
Defined.

(** ** The tile cache *)

Lemma has_false_get (c : TileCache) (k : TileKey) :
  TileMap.has c k = false <-> TileMap.get c k = None.
Proof.
  unfold TileMap.has. destruct (TileMap.get c k); split; congruence.
Qed.

(** A key that is not cached is stored behind every cached entry. *)
Lemma set_new_last (c : TileCache) (k : TileKey) (v : Body) :
  TileMap.get c k = None -> TileMap.set c k v = c ++ [(k, v)].
Proof.
  induction c as [|[k' v'] c IH]; simpl; [reflexivity|].
  destruct (decide (k' = k)); [discriminate|].
  intros H. now rewrite IH.
Qed.

Lemma get_set_eq (c : TileCache) (k : TileKey) (v : Body) :
  TileMap.get (TileMap.set c k v) k = Some v.
Proof.
  induction c as [|[k' v'] c IH]; simpl.
  - destruct (decide (k = k)); congruence.
  - destruct (decide (k' = k)) as [->|Hne]; simpl.
    + destruct (decide (k = k)); congruence.
    + destruct (decide (k' = k)); [contradiction|assumption].
Qed.

Lemma get_last_new (c : TileCache) (k : TileKey) (v : Body) :
  TileMap.get c k = None -> TileMap.get (c ++ [(k, v)]) k = Some v.
Proof.
  intros H. rewrite <- (set_new_last c k v H). apply get_set_eq.
Qed.

Lemma length_set_bound (c : TileCache) (k : TileKey) (v : Body) :
  (length (TileMap.set c k v) <= S (length c))%nat.
Proof.
  induction c as [|[k' v'] c IH]; simpl; [lia|].
  destruct (decide (k' = k)); simpl; lia.
Qed.

(** Lines 418-421 drop the head of the insertion order, and only when
    the map holds more than 1000 entries. *)
Lemma evictOldest_tail (c : TileCache) :
  evictOldest c = if 1000 <? TileMap.size c then tail c else c.
Proof.
  unfold evictOldest. destruct (1000 <? TileMap.size c); [|reflexivity].
  destruct c as [|[k v] c]; simpl; [reflexivity|].
  destruct (decide (k = k)); congruence.
Qed.

(** The clamped branch keeps a cache of at most 1000 entries within
    1000 entries. *)
Lemma clamped_store_bounded (c : TileCache) (k : TileKey) (tile : Body) :
  TileMap.size c <= 1000 -> TileMap.size (storeTile Clamped c k tile) <= 1000.
Proof.
  unfold storeTile, TileMap.size. intros Hc. rewrite evictOldest_tail.
  pose proof (length_set_bound c k tile) as Hs.
  destruct (1000 <? TileMap.size (TileMap.set c k tile)) eqn:Hover;
    unfold TileMap.size in Hover.
  - destruct (TileMap.set c k tile); simpl in *; lia.
  - apply Z.ltb_ge in Hover. lia.
Qed.

(** When the clamped branch goes over capacity, the entry it drops is
    the one inserted first. *)
Lemma clamped_store_fifo (k0 : TileKey) (v0 : Body) (c : TileCache) (k : TileKey) (tile : Body) :
  TileMap.get ((k0, v0) :: c) k = None ->
  TileMap.size ((k0, v0) :: c) = 1000 ->
  storeTile Clamped ((k0, v0) :: c) k tile = c ++ [(k, tile)].
Proof.
  intros Hg Hsz. unfold storeTile.
  rewrite (set_new_last _ _ tile Hg), evictOldest_tail.
  unfold TileMap.size in *. rewrite length_app. simpl length in *.
  destruct (1000 <? _) eqn:Hover; [reflexivity|].
  apply Z.ltb_ge in Hover. lia.
Qed.

(** The fixed-window branch grows the cache by one entry whatever its
    size. *)
Lemma fallback_store_grows (c : TileCache) (k : TileKey) (tile : Body) :
  TileMap.get c k = None ->
  TileMap.size (storeTile FixedFallback c k tile) = TileMap.size c + 1.
Proof.
  intros Hg. unfold storeTile, TileMap.size.
  rewrite (set_new_last _ _ tile Hg), length_app. simpl. lia.
Qed.

(** Whichever branch stored it, a tile that was just stored under a
    fresh key is found under that key. *)
Lemma get_storeTile (p : Path) (c : TileCache) (k : TileKey) (tile : Body) :
  TileMap.get c k = None -> TileMap.get (storeTile p c k tile) k = Some tile.
Proof.
  intros Hg. destruct p; unfold storeTile; [|apply get_set_eq].
  rewrite evictOldest_tail, (set_new_last _ _ tile Hg).
  destruct (1000 <? _) eqn:Hover; [|now apply get_last_new].
  destruct c as [|[k0 v0] c]; [discriminate|].
  simpl in *. destruct (decide (k0 = k)); [discriminate|].
  now apply get_last_new.
Qed.

(** C2 (the code at the failing input).  On a 20 x 20 raster on which
    every tile covers pixels 0 .. 15 (more than half the raster) around
    the centre pixel (8, 8), the 1001 requests 14/0/0 .. 14/1000/0 are
    all served by the fixed-window branch, which stores each tile
    (line 339) and never trims: the cache ends with 1001 entries, the
    oldest key 14/0/0 still among them. *)
Theorem C2_fallback_store_exceeds_capacity :
  TileMap.size (snd (Demo.server 20 20 (Demo.square 0 0 15 15) (8, 8) [] (Demo.row 1001)))
    = 1001 /\
  TileMap.has (snd (Demo.server 20 20 (Demo.square 0 0 15 15) (8, 8) [] (Demo.row 1001)))
              (mkTileKey 14 0 0) = true /\
  resolveWindow (mkRasterInfo 20 20) 14 (Demo.square 0 0 15 15) (Some (8, 8))
    = ReadWindow FixedFallback (mkWindow 7 7 2 2).
Proof.
  split; [vm_compute; reflexivity|].
  split; vm_compute; reflexivity.
Qed.

(** ** Responses and the cache across requests *)

Section Responses.

Variable dataset : option RasterInfo.
Variable cornerPixels : TileKey -> option Corners.
Variable centerPixel : TileKey -> option Pixel.
Variable readBand : Z -> PixelWindow -> option (list Z).
Variable sharpEncode : list Z -> Z -> Z -> option (list Z).

#[local] Abbreviation handle :=
  (handleTile dataset cornerPixels centerPixel readBand sharpEncode).
#[local] Abbreviation render := (renderTile readBand sharpEncode).
#[local] Abbreviation serveAll :=
  (serve dataset cornerPixels centerPixel readBand sharpEncode).

(** The three ways a request can end. *)
Lemma handleTile_cases (c : TileCache) (k : TileKey) :
  handle c k = (sendEmptyTile, c) \/
  (exists tile, TileMap.get c k = Some tile /\ handle c k = (sendTile HIT tile, c)) \/
  (exists p tile, TileMap.get c k = None /\
                  handle c k = (sendTile MISS tile, storeTile p c k tile)).
Proof.
  unfold handleTile, TileMap.has.
  destruct dataset as [info|]; [|now left].
  destruct (TileMap.get c k) as [cached|] eqn:Hg.
  { right; left. now exists cached. }
  destruct (cornerPixels k) as [corners|]; [|now left].
  destruct (resolveWindow _ _ _ _) as [|p w]; [now left|].
  destruct (render w) as [tile|]; [|now left].
  right; right. now exists p, tile.
Qed.

(** The codec or a band read failing makes the rendering fail. *)
Lemma renderTile_failure (w : PixelWindow) :
  (exists band, (band = 1 \/ band = 2 \/ band = 3) /\ readBand band w = None) \/
  (forall rgbData, sharpEncode rgbData (readWidth w) (readHeight w) = None) ->
  render w = None.
Proof.
  unfold renderTile. intros [(band & Hb & Hnone)|Hcodec].
  - destruct Hb as [-> | [-> | ->]].
    + now rewrite Hnone.
    + rewrite Hnone. now destruct (readBand 1 w).
    + rewrite Hnone. destruct (readBand 1 w); [|reflexivity].
      now destruct (readBand 2 w).
  - destruct (readBand 1 w); [|reflexivity].
    destruct (readBand 2 w); [|reflexivity].
    destruct (readBand 3 w); [|reflexivity].
    simpl. now rewrite Hcodec.
Qed.

(** C5.  Every response of the tile handler has status 200 and content
    type image/png.  A response without a tile is the transparent
    256 x 256 placeholder: that is the answer when the dataset is not
    available, when proj4 throws, when the resolver reports NoCoverage
    and when a band read or the codec throws. *)
Theorem C5_every_response_is_200_png (c : TileCache) (k : TileKey) :
  status (fst (handle c k)) = 200 /\
  contentType (fst (handle c k)) = "image/png"%string /\
  (xCache (fst (handle c k)) = None ->
     fst (handle c k) = sendEmptyTile /\
     body (fst (handle c k)) = Placeholder 256 256) /\
  (dataset = None -> fst (handle c k) = sendEmptyTile) /\
  (TileMap.has c k = false ->
     (cornerPixels k = None -> fst (handle c k) = sendEmptyTile) /\
     (forall info corners,
        dataset = Some info -> cornerPixels k = Some corners ->
        (centerPixel k = None ->
         outOfBounds info (boundingWindow corners) = false ->
         tooLarge info (boundingWindow corners) = true ->
         fst (handle c k) = sendEmptyTile) /\
        (resolveWindow info (tz k) corners (centerPixel k) = NoCoverage ->
         fst (handle c k) = sendEmptyTile) /\
        (forall p w,
           resolveWindow info (tz k) corners (centerPixel k) = ReadWindow p w ->
           (exists band, (band = 1 \/ band = 2 \/ band = 3) /\ readBand band w = None) \/
           (forall rgbData, sharpEncode rgbData (readWidth w) (readHeight w) = None) ->
           fst (handle c k) = sendEmptyTile))).
Proof.
  split; [|split; [|split; [|split]]].
  - destruct (handleTile_cases c k) as [H|[(t & _ & H)|(p & t & _ & H)]];
      now rewrite H.
  - destruct (handleTile_cases c k) as [H|[(t & _ & H)|(p & t & _ & H)]];
      now rewrite H.
  - destruct (handleTile_cases c k) as [H|[(t & _ & H)|(p & t & _ & H)]];
      rewrite H; simpl; intros Hx; try discriminate. now split.
  - intros Hd. unfold handleTile. now rewrite Hd.
  - intros Hh. split.
    + intros Hc. unfold handleTile. rewrite Hh, Hc. now destruct dataset.
    + intros info corners Hd Hc.
      rewrite (handleTile_uncached _ _ _ _ _ info c k Hd Hh), Hc.
      split; [|split].
      * intros Hcp Hout Hbig. unfold resolveWindow.
        rewrite Hout, Hbig, Hcp. now destruct (highZoom <=? tz k).
      * intros Hr. now rewrite Hr.
      * intros p w Hr Hfail. now rewrite Hr, (renderTile_failure w Hfail).
Qed.

(** C8 (amended).  Two consecutive requests for the same key yield the
    same body.  When the first response is a MISS the second is a HIT,
    and a HIT is followed by a HIT.  A response carries either the
    header X-Cache: HIT, or X-Cache: MISS, or no X-Cache header at all:
    the last is the case exactly for the empty tile, and then the
    second response is the empty tile again, without the header. *)
Theorem C8_consecutive_requests (c : TileCache) (k : TileKey) :
  let r1 := fst (handle c k) in
  let c1 := snd (handle c k) in
  let r2 := fst (handle c1 k) in
  body r1 = body r2 /\
  (xCache r1 = Some MISS -> xCache r2 = Some HIT) /\
  (xCache r1 = Some HIT -> xCache r2 = Some HIT) /\
  (xCache r1 = None <-> r1 = sendEmptyTile) /\
  (xCache r1 = None -> r2 = sendEmptyTile /\ xCache r2 = None).
Proof.
  cbv zeta.
  destruct (handleTile_cases c k) as [H|[(t & Hg & H)|(p & t & Hg & H)]];
    rewrite H; cbn [fst snd].
  - rewrite H; cbn [fst]. unfold sendEmptyTile; cbn. intuition congruence.
  - rewrite H; cbn [fst]. unfold sendTile, sendEmptyTile; cbn. intuition congruence.
  - assert (exists info, dataset = Some info) as [info Hd].
    { unfold handleTile in H. destruct dataset as [info|]; [now exists info|].
      discriminate. }
    rewrite (handleTile_cached _ _ _ _ _ info _ k t Hd (get_storeTile p c k t Hg)).
    unfold sendTile, sendEmptyTile; cbn. intuition congruence.
Qed.

(** C10.  A request that ends in [sendEmptyTile] leaves the cache as it
    was and its response has no X-Cache header; with the dataset
    available its key is not cached; and however often the request is
    repeated, every response is again the empty tile (never a HIT) and
    the cache stays unchanged. *)
Theorem C10_empty_tile_is_never_cached (c : TileCache) (k : TileKey) :
  fst (handle c k) = sendEmptyTile ->
  snd (handle c k) = c /\
  xCache (fst (handle c k)) = None /\
  (dataset <> None -> TileMap.has c k = false) /\
  forall n : nat,
    serveAll c (replicate n k) = (replicate n sendEmptyTile, c) /\
    Forall (fun r => xCache r <> Some HIT) (fst (serveAll c (replicate n k))).
Proof.
  intros He.
  assert (handle c k = (sendEmptyTile, c)) as Hh.
  { destruct (handleTile_cases c k) as [H|[(t & _ & H)|(p & t & _ & H)]];
      rewrite H in He |- *; [reflexivity|discriminate|discriminate]. }
  assert (forall n, serveAll c (replicate n k) = (replicate n sendEmptyTile, c)) as Hn.
  { induction n as [|n IH]; simpl; [reflexivity|]. now rewrite Hh, IH. }
  split; [now rewrite Hh|]. split; [now rewrite Hh|]. split.
  - intros Hd. unfold handleTile, TileMap.has in *.
    destruct dataset as [info|]; [|contradiction].
    destruct (TileMap.get c k); [discriminate|reflexivity].
  - intros n. split; [apply Hn|]. rewrite Hn. cbn [fst].
    apply Forall_replicate. discriminate.
Qed.

End Responses.

(** C8 (counterexample).  On the 100 x 100 raster the tile whose window
    starts one pixel left of the raster is answered with the empty
    tile: the first response is not marked MISS, it carries no X-Cache
    header at all, and neither does the second. *)
Lemma C8_empty_tile_has_no_cache_header :
  ~ (xCache (fst (Demo.handler 100 100 Demo.leftOverlap (4, 5) [] (mkTileKey 12 0 0)))
       = Some MISS /\
     xCache (fst (Demo.handler 100 100 Demo.leftOverlap (4, 5)
                    (snd (Demo.handler 100 100 Demo.leftOverlap (4, 5) [] (mkTileKey 12 0 0)))
                    (mkTileKey 12 0 0)))
       = Some HIT).
Proof. vm_compute. intros [H _]. discriminate H. Qed.

(** C10 (witness).  The left-overlap
    tile on the 100 x 100 raster, requested against the empty cache. *)
Lemma C10_empty_tile_is_never_cached_witness :
  snd (Demo.handler 100 100 Demo.leftOverlap (4, 5) [] (mkTileKey 12 0 0)) = [].
Proof.
  apply (C10_empty_tile_is_never_cached
           (Some Demo.raster100) (Demo.constCorners Demo.leftOverlap)
           (Demo.constCenter (4, 5)) (Demo.readBand Demo.raster100) Demo.sharpEncode
           [] (mkTileKey 12 0 0)).
  reflexivity.
Defined.

(** ** The pixel compositor *)

Section Interleave.

Variables data1 data2 data3 : list Z.

#[local] Abbreviation step := (writePixel data1 data2 data3).

Lemma writePixel_length (rgbData : list Z) (i : nat) :
  length (step rgbData i) = length rgbData.
Proof. unfold writePixel. now rewrite !length_insert. Qed.

Lemma loop_length (l : list nat) (rgbData : list Z) :
  length (fold_left step l rgbData) = length rgbData.
Proof.
  revert rgbData. induction l as [|i l IH]; intros rgbData; simpl; [reflexivity|].
  now rewrite IH, writePixel_length.
Qed.

(** Iteration [i] writes the three cells of pixel [i]. *)
Lemma writePixel_own (rgbData : list Z) (i : nat) :
  (i * 3 + 2 < length rgbData)%nat ->
  step rgbData i !! (i * 3)%nat = Some (toUint8 (data1 !! i)) /\
  step rgbData i !! (i * 3 + 1)%nat = Some (toUint8 (data2 !! i)) /\
  step rgbData i !! (i * 3 + 2)%nat = Some (toUint8 (data3 !! i)).
Proof.
  intros Hlen. unfold writePixel. repeat split.
  - rewrite !list_lookup_insert_ne by lia.
    apply list_lookup_insert_eq. lia.
  - rewrite list_lookup_insert_ne by lia.
    apply list_lookup_insert_eq. rewrite length_insert. lia.
  - apply list_lookup_insert_eq. rewrite !length_insert. lia.
Qed.

(** Iteration [i] leaves the cells of every other pixel alone. *)
Lemma writePixel_other (rgbData : list Z) (i p : nat) :
  (p < i * 3 \/ i * 3 + 3 <= p)%nat ->
  step rgbData i !! p = rgbData !! p.
Proof.
  intros Hp. unfold writePixel. now rewrite !list_lookup_insert_ne by lia.
Qed.

(** The loop invariant: after [n] iterations the cells of the pixels
    below [n] hold the three band samples as bytes, the cells from
    [3 * n] on are untouched. *)
Lemma loop_invariant (n : nat) (rgbData : list Z) :
  let out := fold_left step (seq 0 n) rgbData in
  (forall i : nat, (i < n)%nat -> (i * 3 + 2 < length rgbData)%nat ->
     out !! (i * 3)%nat = Some (toUint8 (data1 !! i)) /\
     out !! (i * 3 + 1)%nat = Some (toUint8 (data2 !! i)) /\
     out !! (i * 3 + 2)%nat = Some (toUint8 (data3 !! i))) /\
  (forall p : nat, (n * 3 <= p)%nat -> out !! p = rgbData !! p).
Proof.
  cbv zeta. induction n as [|n [IHw IHr]].
  - split; [lia|]. reflexivity.
  - rewrite seq_S, fold_left_app. simpl fold_left. split.
    + intros i Hi Hlen.
      destruct (decide (i = n)) as [->|Hne].
      * apply writePixel_own. now rewrite loop_length.
      * rewrite !writePixel_other by lia. apply IHw; lia.
    + intros p Hp. rewrite writePixel_other by lia. apply IHr. lia.
Qed.

(** The buffer has three cells per pixel. *)
Lemma interleaveRGB_length (w h : Z) :
  length (interleaveRGB w h data1 data2 data3) = (Z.to_nat (w * h) * 3)%nat.
Proof.
  unfold interleaveRGB. rewrite loop_length, length_replicate. lia.
Qed.

(** The three cells of pixel [i] after the loop. *)
Lemma interleaveRGB_pixel (w h : Z) (i : nat) :
  (i < Z.to_nat (w * h))%nat ->
  interleaveRGB w h data1 data2 data3 !! (i * 3)%nat = Some (toUint8 (data1 !! i)) /\
  interleaveRGB w h data1 data2 data3 !! (i * 3 + 1)%nat = Some (toUint8 (data2 !! i)) /\
  interleaveRGB w h data1 data2 data3 !! (i * 3 + 2)%nat = Some (toUint8 (data3 !! i)).
Proof.
  intros Hi. unfold interleaveRGB.
  apply (loop_invariant (Z.to_nat (w * h))); [assumption|].
  rewrite length_replicate. lia.
Qed.

End Interleave.

(** A run of equal triples, read cell by cell. *)
Lemma triples_lookup (a b c : Z) (n i j : nat) :
  (i < n)%nat -> (j < 3)%nat ->
  concat (replicate n [a; b; c]) !! (i * 3 + j)%nat = [a; b; c] !! j.
Proof.
  revert i. induction n as [|n IH]; intros i Hi Hj; [lia|].
  simpl replicate. simpl concat.
  destruct i as [|i].
  - destruct j as [|[|[|j]]]; try reflexivity; lia.
  - replace (S i * 3 + j)%nat with (3 + (i * 3 + j))%nat by lia.
    simpl. apply IH; lia.
Qed.

Lemma triples_length (a b c : Z) (n : nat) :
  length (concat (replicate n [a; b; c])) = (n * 3)%nat.
Proof. induction n as [|n IH]; simpl; [reflexivity|]. now rewrite IH. Qed.

(** Three constant bands of bytes interleave to a run of equal triples. *)
Lemma interleaveRGB_constant (w h a b c : Z) :
  0 <= a < 256 -> 0 <= b < 256 -> 0 <= c < 256 ->
  interleaveRGB w h (replicate (Z.to_nat (w * h)) a)
                    (replicate (Z.to_nat (w * h)) b)
                    (replicate (Z.to_nat (w * h)) c)
  = concat (replicate (Z.to_nat (w * h)) [a; b; c]).
Proof.
  intros Ha Hb Hc. set (n := Z.to_nat (w * h)).
  apply list_eq. intros p.
  destruct (decide (p < n * 3)%nat) as [Hp|Hp].
  - pose proof (Nat.div_mod_eq p 3) as Hdm.
    pose proof (Nat.mod_upper_bound p 3 ltac:(lia)) as Hm.
    set (i := (p / 3)%nat) in *. set (j := (p mod 3)%nat) in *.
    assert (i < n)%nat as Hi by lia.
    replace p with (i * 3 + j)%nat by lia.
    rewrite triples_lookup by lia.
    destruct (interleaveRGB_pixel (replicate n a) (replicate n b) (replicate n c)
                                  w h i Hi) as (H0 & H1 & H2).
    rewrite !lookup_replicate_2 in H0, H1, H2 by exact Hi.
    simpl toUint8 in H0, H1, H2.
    rewrite Z.mod_small in H0, H1, H2 by lia.
    destruct j as [|[|[|j]]]; [| | |lia].
    + now rewrite Nat.add_0_r.
    + exact H1.
    + exact H2.
  - rewrite !lookup_ge_None_2; [reflexivity| |].
    + rewrite triples_length. lia.
    + rewrite interleaveRGB_length. fold n. lia.
Qed.

(** C7 (counterexample).  For the 1 x 1 window and the band samples
    300, 20 and 30 the first byte of the buffer is 44, not the sample
    300 of band 1. *)
Lemma C7_large_sample_is_not_copied :
  validWindow Demo.raster100 (mkWindow 0 0 1 1) /\
  interleaveRGB 1 1 [300] [20] [30] !! 0%nat = Some 44 /\
  interleaveRGB 1 1 [300] [20] [30] !! 0%nat <> ([300] : list Z) !! 0%nat.
Proof.
  split; [unfold validWindow; simpl; lia|].
  split; [reflexivity|]. vm_compute. discriminate.
Qed.

(** C7 (amended).  For a valid window of width N and height M and three
    band arrays of length N*M, the buffer has length 3*N*M and, for every
    sample index i below N*M, [out[3i]], [out[3i+1]], [out[3i+2]] are the
    samples [band1[i]], [band2[i]], [band3[i]] reduced modulo 256, hence
    the samples themselves when these lie in 0..255; constant bands
    (10, 20, 30) give the triple (10, 20, 30) repeated N*M times. *)
Theorem C7_interleaved_buffer (info : RasterInfo) (w : PixelWindow)
    (data1 data2 data3 : list Z) :
  validWindow info w ->
  length data1 = Z.to_nat (readWidth w * readHeight w) ->
  length data2 = Z.to_nat (readWidth w * readHeight w) ->
  length data3 = Z.to_nat (readWidth w * readHeight w) ->
  let out := interleaveRGB (readWidth w) (readHeight w) data1 data2 data3 in
  Z.of_nat (length out) = 3 * readWidth w * readHeight w /\
  (forall i : nat, (i < Z.to_nat (readWidth w * readHeight w))%nat ->
     exists b1 b2 b3 : Z,
       data1 !! i = Some b1 /\ data2 !! i = Some b2 /\ data3 !! i = Some b3 /\
       out !! (3 * i)%nat = Some (b1 mod 256) /\
       out !! (3 * i + 1)%nat = Some (b2 mod 256) /\
       out !! (3 * i + 2)%nat = Some (b3 mod 256) /\
       (0 <= b1 < 256 -> out !! (3 * i)%nat = Some b1) /\
       (0 <= b2 < 256 -> out !! (3 * i + 1)%nat = Some b2) /\
       (0 <= b3 < 256 -> out !! (3 * i + 2)%nat = Some b3)) /\
  (data1 = replicate (Z.to_nat (readWidth w * readHeight w)) 10 ->
   data2 = replicate (Z.to_nat (readWidth w * readHeight w)) 20 ->
   data3 = replicate (Z.to_nat (readWidth w * readHeight w)) 30 ->
   out = concat (replicate (Z.to_nat (readWidth w * readHeight w)) [10; 20; 30])).
Proof.
  intros Hv H1 H2 H3. cbv zeta. split; [|split].
  - rewrite interleaveRGB_length. destruct Hv as (_ & _ & Hw & Hh & _). nia.
  - intros i Hi.
    destruct (lookup_lt_is_Some_2 data1 i ltac:(lia)) as [b1 Hb1].
    destruct (lookup_lt_is_Some_2 data2 i ltac:(lia)) as [b2 Hb2].
    destruct (lookup_lt_is_Some_2 data3 i ltac:(lia)) as [b3 Hb3].
    exists b1, b2, b3.
    destruct (interleaveRGB_pixel data1 data2 data3 _ _ i Hi) as (E0 & E1 & E2).
    rewrite Hb1 in E0. rewrite Hb2 in E1. rewrite Hb3 in E2. simpl in E0, E1, E2.
    rewrite (Nat.mul_comm 3 i).
    repeat split; try assumption;
      intros Hb; rewrite <- (Z.mod_small _ 256 Hb); assumption.
  - intros -> -> ->. apply interleaveRGB_constant; lia.
Qed.

(** C7 (witness).  A 2 x 1 window with byte
    samples. *)
Lemma C7_interleaved_buffer_witness :
  Z.of_nat (length (interleaveRGB 2 1 [1; 2] [3; 4] [5; 6])) = 3 * 2 * 1.
Proof.
  apply (C7_interleaved_buffer Demo.raster100 (mkWindow 0 0 2 1) [1; 2] [3; 4] [5; 6]);
    [unfold validWindow; simpl; lia | reflexivity | reflexivity | reflexivity].
Defined.

(** C9.  The loop stores each band sample reduced modulo 256, with no
    clamping and no rescaling; the sample 300 is stored as 44, not as
    255. *)
Theorem C9_samples_wrap_modulo_256 (w h : Z) (data1 data2 data3 : list Z)
    (i : nat) (v : Z) :
  (i < Z.to_nat (w * h))%nat ->
  (data1 !! i = Some v ->
   interleaveRGB w h data1 data2 data3 !! (3 * i)%nat = Some (v mod 256)) /\
  (data2 !! i = Some v ->
   interleaveRGB w h data1 data2 data3 !! (3 * i + 1)%nat = Some (v mod 256)) /\
  (data3 !! i = Some v ->
   interleaveRGB w h data1 data2 data3 !! (3 * i + 2)%nat = Some (v mod 256)) /\
  (exists sample : Z,
     255 < sample /\
     interleaveRGB 1 1 [sample] [sample] [sample]
       = [sample mod 256; sample mod 256; sample mod 256] /\
     sample mod 256 <> 255 /\ sample mod 256 < sample).
Proof.
  intros Hi.
  destruct (interleaveRGB_pixel data1 data2 data3 w h i Hi) as (E0 & E1 & E2).
  rewrite (Nat.mul_comm 3 i).
  split; [|split; [|split]].
  - intros Hv. now rewrite Hv in E0.
  - intros Hv. now rewrite Hv in E1.
  - intros Hv. now rewrite Hv in E2.
  - exists 300. vm_compute. repeat split; congruence.
Qed.

(** C9 (witness).  Sample 511 of band 2
    in a 2 x 1 window. *)
Lemma C9_samples_wrap_modulo_256_witness :
  interleaveRGB 2 1 [0; 0] [0; 511] [0; 0] !! (3 * 1 + 1)%nat = Some (511 mod 256).
Proof.
  apply (C9_samples_wrap_modulo_256 2 1 [0; 0] [0; 511] [0; 0] 1%nat 511);
    [vm_compute; lia | reflexivity].
Defined.

(** ** The coordinate transforms *)









(** * Further properties *)

(** ** Tiles and map positions *)

Lemma pow2_pos (z : Z) : (0 < Geo.pow2 z)%R.
Proof. unfold Geo.pow2. apply powerRZ_lt. lra. Qed.

Lemma Math_floor_IZR (k : Z) (r : R) :
  (IZR k <= r < IZR k + 1)%R -> Client.Math_floor r = k.
Proof.
  intros H. unfold Client.Math_floor. symmetry. apply Int_part_spec. lra.
Qed.

Lemma js_round_IZR (k : Z) (r : R) :
  (IZR k - / 2 <= r < IZR k + / 2)%R -> Geo.js_round r = k.
Proof.
  intros H. unfold Geo.js_round. symmetry. apply Int_part_spec. lra.
Qed.

(** The argument of [atan] in [tileToLatLon] grows with [n]. *)
Lemma half_exp_diff_increasing (a b : R) :
  (a < b)%R -> (0.5 * (exp a - exp (- a)) < 0.5 * (exp b - exp (- b)))%R.
Proof.
  intros H.
  pose proof (exp_increasing a b H).
  pose proof (exp_increasing (- b) (- a) ltac:(lra)). lra.
Qed.

Lemma half_exp_diff_odd (a : R) :
  (0.5 * (exp (- a) - exp (- - a)) = - (0.5 * (exp a - exp (- a))))%R.
Proof. rewrite Ropp_involutive. lra. Qed.

(** X1.  A longitude between the west edges of the tiles [x] and [x + 1] has
    tile column [x]; the index computed by the page inverts
    [tileToLatLon] on columns. *)
Theorem tileX_inverts_tile_longitude (x y z : Z) (lng : R) :
  (Geo.lon (Geo.tileToLatLon x y z) <= lng < Geo.lon (Geo.tileToLatLon (x + 1) y z))%R ->
  Client.tileX lng z = x.
Proof.
  unfold Geo.tileToLatLon. cbn [Geo.lon]. rewrite plus_IZR.
  pose proof (pow2_pos z) as Hp. set (p := Geo.pow2 z) in *.
  intros [Hlo Hhi]. unfold Client.tileX. fold p. apply Math_floor_IZR.
  assert (IZR x = IZR x / p * p)%R as Ex by (field; lra).
  assert (IZR x + 1 = (IZR x + 1) / p * p)%R as Ex1 by (field; lra).
  split.
  - rewrite Ex at 1. apply Rmult_le_compat_r; lra.
  - rewrite Ex1. apply Rmult_lt_compat_r; lra.
Qed.

(** Witness: the west edge of tile 1/1/1 itself. *)
Lemma tileX_inverts_tile_longitude_witness :
  Client.tileX (Geo.lon (Geo.tileToLatLon 1 1 1)) 1 = 1.
Proof.
  apply (tileX_inverts_tile_longitude 1 1 1).
  unfold Geo.tileToLatLon, Geo.pow2. cbn [Geo.lon]. rewrite plus_IZR. simpl. lra.
Defined.

(** The quantity the page takes the logarithm of is the inverse
    hyperbolic sine of the tangent. *)
Lemma mercator_is_arcsinh_tan (phi : R) :
  (- PI / 2 < phi < PI / 2)%R ->
  ln (tan phi + 1 / cos phi) = arcsinh (tan phi).
Proof.
  intros [Hlo Hhi].
  assert (0 < cos phi)%R as Hcos by (apply cos_gt_0; lra).
  rewrite (Rtrigo_facts.cos_tan phi Hcos) at 1.
  unfold arcsinh. f_equal. f_equal.
  assert (0 < 1 + (tan phi)²)%R as Hpos by (unfold Rsqr; nra).
  assert (0 < sqrt (1 + (tan phi)²))%R as Hsq by (apply sqrt_lt_R0; exact Hpos).
  replace (tan phi ^ 2 + 1)%R with (1 + (tan phi)²)%R by (unfold Rsqr; ring).
  field. lra.
Qed.

(** X2.  A latitude strictly between the north edges of the rows [y + 1]
    and [y], that is inside row [y], has tile row [y]: the row index
    computed by the page inverts [tileToLatLon] inside every row. *)
Theorem tileY_inverts_tile_latitude (x y z : Z) (lat : R) :
  (Geo.lat (Geo.tileToLatLon x (y + 1) z) < lat < Geo.lat (Geo.tileToLatLon x y z))%R ->
  Client.tileY lat z = y.
Proof.
  unfold Geo.tileToLatLon. cbn [Geo.lat]. rewrite plus_IZR.
  pose proof (pow2_pos z) as Hp. set (p := Geo.pow2 z) in *.
  pose proof PI_RGT_0 as Hpi.
  set (n0 := (PI - 2 * PI * IZR y / p)%R).
  set (n1 := (PI - 2 * PI * (IZR y + 1) / p)%R).
  replace (0.5 * (exp n0 - exp (- n0)))%R with (sinh n0) by (unfold sinh; lra).
  replace (0.5 * (exp n1 - exp (- n1)))%R with (sinh n1) by (unfold sinh; lra).
  intros [Hlo Hhi].
  set (phi := (lat * PI / 180)%R).
  assert (atan (sinh n1) < phi < atan (sinh n0))%R as [Hlo' Hhi'].
  { unfold phi. split.
    - replace (atan (sinh n1)) with (180 / PI * atan (sinh n1) * PI / 180)%R
        by (field; lra).
      unfold Rdiv. apply Rmult_lt_compat_r; [lra|]. apply Rmult_lt_compat_r; lra.
    - replace (atan (sinh n0)) with (180 / PI * atan (sinh n0) * PI / 180)%R
        by (field; lra).
      unfold Rdiv. apply Rmult_lt_compat_r; [lra|]. apply Rmult_lt_compat_r; lra. }
  pose proof (atan_bound (sinh n0)) as [B0 B0'].
  pose proof (atan_bound (sinh n1)) as [B1 B1'].
  assert (- PI / 2 < phi < PI / 2)%R as Hphi by lra.
  assert (sinh n1 < tan phi < sinh n0)%R as [Ht1 Ht0].
  { split.
    - rewrite <- (tan_atan (sinh n1)). apply tan_increasing; lra.
    - rewrite <- (tan_atan (sinh n0)). apply tan_increasing; lra. }
  unfold Client.tileY. fold p. fold phi.
  rewrite (mercator_is_arcsinh_tan phi Hphi).
  pose proof (arcsinh_lt _ _ Ht1) as Hm1. pose proof (arcsinh_lt _ _ Ht0) as Hm0.
  rewrite arcsinh_sinh in Hm1, Hm0.
  set (m := arcsinh (tan phi)) in *. clearbody m.
  apply Math_floor_IZR.
  set (c := (p / (2 * PI))%R).
  assert (0 < c)%R as Hc.
  { unfold c. apply Rdiv_lt_0_compat; lra. }
  assert (forall v : R, ((1 - v / PI) / 2 * p = p / 2 - v * c)%R) as Hg.
  { intros v. unfold c. field. lra. }
  assert (p / 2 - n0 * c = IZR y)%R as E0 by (unfold n0, c; field; lra).
  assert (p / 2 - n1 * c = IZR y + 1)%R as E1 by (unfold n1, c; field; lra).
  rewrite Hg. clearbody c. nra.
Qed.

(** Witness: latitude 45 lies inside row 0 of zoom 1, between the
    equator and the top of the grid. *)
Lemma tileY_inverts_tile_latitude_witness :
  Client.tileY 45 1 = 0.
Proof.
  apply (tileY_inverts_tile_latitude 0 0 1).
  unfold Geo.tileToLatLon, Geo.pow2. cbn [Geo.lat].
  replace (powerRZ 2 1) with 2%R by (simpl; lra).
  pose proof PI_RGT_0 as Hpi. pose proof PI2_1 as Hpi2.
  change (0 + 1) with 1.
  split.
  - replace (PI - 2 * PI * 1 / 2)%R with 0%R by lra.
    rewrite Ropp_0, Rminus_diag, Rmult_0_r, atan_0. lra.
  - replace (PI - 2 * PI * 0 / 2)%R with PI by lra.
    pose proof (exp_ineq1 PI ltac:(lra)) as He.
    pose proof (exp_increasing (- PI) 0 ltac:(lra)) as He'. rewrite exp_0 in He'.
    assert (1 < 0.5 * (exp PI - exp (- PI)))%R as Hs by lra.
    pose proof (atan_increasing _ _ Hs) as Ha. rewrite atan_1 in Ha.
    replace 45%R with (180 / PI * (PI / 4))%R by (field; lra).
    apply Rmult_lt_compat_l; [|exact Ha].
    apply Rdiv_lt_0_compat; lra.
Defined.

(** X3.  Tiles are laid out west to east and north to south: each column is
    [360 / 2^z] degrees wide, latitude falls strictly from one row to
    the next, and every latitude lies strictly between -90 and 90. *)
Theorem tile_edges_are_ordered (x y z : Z) :
  (Geo.lon (Geo.tileToLatLon (x + 1) y z) - Geo.lon (Geo.tileToLatLon x y z)
     = 360 / Geo.pow2 z)%R /\
  (Geo.lon (Geo.tileToLatLon x y z) < Geo.lon (Geo.tileToLatLon (x + 1) y z))%R /\
  (Geo.lat (Geo.tileToLatLon x (y + 1) z) < Geo.lat (Geo.tileToLatLon x y z))%R /\
  (-90 < Geo.lat (Geo.tileToLatLon x y z) < 90)%R.
Proof.
  unfold Geo.tileToLatLon. cbn [Geo.lon Geo.lat]. rewrite !plus_IZR.
  pose proof (pow2_pos z) as Hp. set (p := Geo.pow2 z) in *.
  pose proof PI_RGT_0 as Hpi.
  assert (0 < / p)%R as Hip by (apply Rinv_0_lt_compat; lra).
  assert (0 < 180 / PI)%R as Hk by (apply Rdiv_lt_0_compat; lra).
  split; [field; lra|]. split.
  { unfold Rdiv. nra. }
  split.
  - apply Rmult_lt_compat_l; [exact Hk|].
    apply atan_increasing, half_exp_diff_increasing.
    unfold Rdiv. nra.
  - set (s := (0.5 * _)%R).
    pose proof (atan_bound s) as [Hlo Hhi].
    replace 90%R with (180 / PI * (PI / 2))%R by (field; lra).
    replace (-90)%R with (180 / PI * (- PI / 2))%R by (field; lra).
    split; apply Rmult_lt_compat_l; assumption.
Qed.

(** X4.  The grid spans the world: column 0 starts at longitude -180, column
    [2^z] at +180, and the rows are mirror images about the equator. *)
Theorem tile_grid_is_symmetric (x y z : Z) :
  0 <= z ->
  Geo.lon (Geo.tileToLatLon 0 y z) = (-180)%R /\
  Geo.lon (Geo.tileToLatLon (2 ^ z) y z) = 180%R /\
  Geo.lat (Geo.tileToLatLon x (2 ^ z - y) z) = (- Geo.lat (Geo.tileToLatLon x y z))%R /\
  (2 * y = 2 ^ z -> Geo.lat (Geo.tileToLatLon x y z) = 0%R).
Proof.
  intros Hz.
  assert (IZR (2 ^ z) = Geo.pow2 z) as Hpow.
  { unfold Geo.pow2. rewrite <- (Z2Nat.id z Hz) at 1.
    rewrite <- pow_IZR, pow_powerRZ. now rewrite Z2Nat.id. }
  unfold Geo.tileToLatLon. cbn [Geo.lon Geo.lat].
  pose proof (pow2_pos z) as Hp.
  pose proof PI_RGT_0 as Hpi.
  rewrite minus_IZR, Hpow. set (p := Geo.pow2 z) in *.
  split; [lra|]. split; [field; lra|]. split.
  - replace (PI - 2 * PI * (p - IZR y) / p)%R with (- (PI - 2 * PI * IZR y / p))%R
      by (field; lra).
    rewrite half_exp_diff_odd, atan_opp. lra.
  - intros Hy.
    assert (2 * IZR y = p)%R as Hy' by (rewrite <- Hpow, <- Hy, mult_IZR; lra).
    replace (PI - 2 * PI * IZR y / p)%R with 0%R by (rewrite <- Hy'; field; lra).
    rewrite Ropp_0, Rminus_diag, Rmult_0_r, atan_0. lra.
Qed.

(** Witness: zoom 1, where row 1 starts at the equator. *)
Lemma tile_grid_is_symmetric_witness :
  Geo.lon (Geo.tileToLatLon 0 1 1) = (-180)%R.
Proof.
  apply (tile_grid_is_symmetric 0 1 1). lia.
Defined.

(** X5.  [projToPixel] inverts the geotransform at pixel corners, so the
    bounds computed at initialisation are the pixels (0, 0) and
    (width, height). *)
Theorem bounds_are_the_raster_corners (ds : Init.Dataset)
    (gt6 : R * R * R * R * R * R) (gt : Geo.GeoTransform) :
  Init.geoTransform ds = Some gt6 ->
  Init.handlerTransform ds = Some gt ->
  Geo.pixelWidth gt <> 0%R -> Geo.pixelHeight gt <> 0%R ->
  let info := Init.makeInfo ds gt6 in
  (forall col row : Z,
     Geo.projToPixel gt (Geo.originX gt + IZR col * Geo.pixelWidth gt)
                        (Geo.originY gt + IZR row * Geo.pixelHeight gt) = (col, row)) /\
  Geo.projToPixel gt (Init.minX (Init.bounds info)) (Init.maxY (Init.bounds info)) = (0, 0) /\
  Geo.projToPixel gt (Init.maxX (Init.bounds info)) (Init.minY (Init.bounds info))
    = (Init.width info, Init.height info).
Proof.
  intros Hgt Hh Hw Hhh. cbv zeta.
  unfold Init.handlerTransform in Hh. rewrite Hgt in Hh.
  destruct gt6 as [[[[[oX pW] sX] oY] sY] pH]. injection Hh as <-.
  cbn [Geo.pixelWidth Geo.pixelHeight Geo.originX Geo.originY] in *.
  assert (forall col row : Z,
            Geo.projToPixel (Geo.mkGeoTransform oX pW oY pH)
              (oX + IZR col * pW) (oY + IZR row * pH) = (col, row)) as Hinv.
  { intros col row. unfold Geo.projToPixel.
    cbn [Geo.pixelWidth Geo.pixelHeight Geo.originX Geo.originY].
    f_equal; apply js_round_IZR.
    - replace ((oX + IZR col * pW - oX) / pW)%R with (IZR col) by (field; assumption). lra.
    - replace ((oY + IZR row * pH - oY) / pH)%R with (IZR row) by (field; assumption). lra. }
  split; [exact Hinv|].
  unfold Init.makeInfo.
  cbn [Init.bounds Init.minX Init.minY Init.maxX Init.maxY Init.width Init.height].
  split; [|apply Hinv].
  rewrite <- (Hinv 0 0). f_equal; lra.
Qed.

(** ** More on the resolver *)

(** Facts about rationals with denominator 1 or 2, by cross
    multiplication. *)
Ltac qcross :=
  unfold Qeq, Qle, Qlt, Qplus, Qminus, Qopp, Qmult, inject_Z in *;
  cbn [Qnum Qden] in *; lia.

Lemma Math_round_upper (q : Q) : (inject_Z (Math_round q) <= q + (1 # 2))%Q.
Proof. apply Qfloor_le. Qed.

Lemma Math_round_nonneg (q : Q) : (0 <= q)%Q -> 0 <= Math_round q.
Proof.
  intros H. unfold Math_round.
  change 0 with (Qfloor (1 # 2)). apply Qfloor_resp_le. lra.
Qed.

Lemma Math_round_inject_Z (q : Q) (k : Z) : (q == inject_Z k)%Q -> Math_round q = k.
Proof.
  intros H. unfold Math_round. rewrite (Qfloor_comp _ _ (Qplus_comp _ _ H _ _ (Qeq_refl _))).
  pose proof (Qfloor_le (inject_Z k + (1 # 2))) as Hlo.
  pose proof (Qlt_floor (inject_Z k + (1 # 2))) as Hhi.
  set (r := Qfloor (inject_Z k + (1 # 2))) in *. clearbody r.
  qcross.
Qed.

Lemma Qmax_inject_Z (a b : Z) : (Qmax (inject_Z a) (inject_Z b) == inject_Z (Z.max a b))%Q.
Proof.
  destruct (Z.max_spec a b) as [[Hlt ->]|[Hle ->]].
  - apply Q.max_r. rewrite <- Zle_Qle. lia.
  - apply Q.max_l. rewrite <- Zle_Qle. lia.
Qed.

Lemma Qmin_inject_Z (a b : Z) : (Qmin (inject_Z a) (inject_Z b) == inject_Z (Z.min a b))%Q.
Proof.
  destruct (Z.min_spec a b) as [[Hlt ->]|[Hle ->]].
  - apply Q.min_l. rewrite <- Zle_Qle. lia.
  - apply Q.min_r. rewrite <- Zle_Qle. lia.
Qed.

(** X6.  A window that passed the out-of-bounds step and is not oversized is
    always read: the branch keeps its origin, trims the extents at the
    right and bottom edges only, and never takes the exit of line 360;
    a window that fits into the raster is read as it is. *)
Theorem clamped_branch_only_trims (info : RasterInfo) (z : Z) (c : Corners)
    (cp : option Pixel) :
  outOfBounds info (boundingWindow c) = false ->
  tooLarge info (boundingWindow c) = false ->
  let w := boundingWindow c in
  resolveWindow info z c cp =
    ReadWindow Clamped
      {| readX := readX w; readY := readY w;
         readWidth := Z.min (width info - readX w) (readWidth w);
         readHeight := Z.min (height info - readY w) (readHeight w) |} /\
  (readX w + readWidth w <= width info -> readY w + readHeight w <= height info ->
   resolveWindow info z c cp = ReadWindow Clamped w).
Proof.
  intros Hout Hbig. cbv zeta.
  assert (resolveWindow info z c cp = ReadWindow Clamped (clampWindow info (boundingWindow c)))
    as Hres.
  { unfold resolveWindow. rewrite Hout, Hbig.
    apply outOfBounds_false in Hout.
    assert (adjustedInvalid (clampWindow info (boundingWindow c)) = false) as ->; [|reflexivity].
    unfold adjustedInvalid, clampWindow. cbn [readWidth readHeight].
    apply orb_false_iff. split; apply Z.leb_gt; lia. }
  rewrite Hres. apply outOfBounds_false in Hout.
  set (w := boundingWindow c) in *.
  unfold clampWindow. split.
  - f_equal. f_equal; lia.
  - intros Hx Hy. f_equal. destruct w as [x y ww wh]. cbn in *.
    f_equal; lia.
Qed.

(** Witness: the window (10, 10, 20, 20) on the 100 x 100 raster. *)
Lemma clamped_branch_only_trims_witness :
  resolveWindow Demo.raster100 12 (Demo.square 10 10 30 30) None
    = ReadWindow Clamped (mkWindow 10 10 20 20).
Proof.
  destruct (clamped_branch_only_trims Demo.raster100 12 (Demo.square 10 10 30 30) None
              eq_refl eq_refl) as [_ H].
  apply H; vm_compute; congruence.
Defined.

(** X7.  The window the fixed-window branch reads after rounding has a
    non-negative origin and non-negative extents, and it overruns the
    raster by at most one pixel in each direction. *)
Theorem rounded_fallback_window_bounds (info : RasterInfo) (cp : Pixel) :
  fixedInvalid (fixedWindow info cp) = false ->
  let w := roundWindow (fixedWindow info cp) in
  0 <= readX w /\ 0 <= readY w /\ 0 <= readWidth w /\ 0 <= readHeight w /\
  readX w + readWidth w <= width info + 1 /\
  readY w + readHeight w <= height info + 1.
Proof.
  intros Hok. cbv zeta.
  destruct (fixed_window_inside_before_rounding info cp Hok)
    as (Hx & Hy & Hw & Hh & Hxw & Hyh).
  set (f := fixedWindow info cp) in *.
  unfold roundWindow. cbn [readX readY readWidth readHeight].
  pose proof (Math_round_upper (fixedReadX f)) as Ux.
  pose proof (Math_round_upper (fixedReadY f)) as Uy.
  pose proof (Math_round_upper (fixedReadWidth f)) as Uw.
  pose proof (Math_round_upper (fixedReadHeight f)) as Uh.
  repeat split.
  - apply Math_round_nonneg, Hx.
  - apply Math_round_nonneg, Hy.
  - apply Math_round_nonneg. lra.
  - apply Math_round_nonneg. lra.
  - rewrite Zle_Qle, !inject_Z_plus. change (inject_Z 1) with 1%Q. lra.
  - rewrite Zle_Qle, !inject_Z_plus. change (inject_Z 1) with 1%Q. lra.
Qed.

(** Witness: the 1010 x 1010 raster with the centre pixel on its
    corner. *)
Lemma rounded_fallback_window_bounds_witness :
  readX (roundWindow (fixedWindow Demo.raster1010 (1010, 1010)))
  + readWidth (roundWindow (fixedWindow Demo.raster1010 (1010, 1010)))
  <= width Demo.raster1010 + 1.
Proof.
  apply (rounded_fallback_window_bounds Demo.raster1010 (1010, 1010)).
  reflexivity.
Defined.

(** X8.  When the smaller raster dimension is a multiple of 20, the fixed
    window has integer coordinates, the rounding changes nothing, and
    the window handed to the band reads is valid. *)
Theorem fallback_window_valid_on_multiples_of_20 (info : RasterInfo) (cp : Pixel) :
  (20 | Z.min (width info) (height info)) ->
  fixedInvalid (fixedWindow info cp) = false ->
  let half := Z.min (width info) (height info) / 20 in
  let w := roundWindow (fixedWindow info cp) in
  readX w = Z.max 0 (fst cp - half) /\
  readY w = Z.max 0 (snd cp - half) /\
  readWidth w = Z.min (width info - readX w) (2 * half) /\
  readHeight w = Z.min (height info - readY w) (2 * half) /\
  validWindow info w.
Proof.
  intros [j Hj] Hok. cbv zeta.
  destruct (fixed_window_inside_before_rounding info cp Hok)
    as (Hx & Hy & Hw & Hh & Hxw & Hyh).
  replace (Z.min (width info) (height info) / 20) with j
    by (rewrite Hj; symmetry; apply Z.div_mul; lia).
  assert (fixedSize info == inject_Z (2 * j))%Q as Hs.
  { unfold fixedSize. rewrite Hj. unfold Qdiv. change (/ 10)%Q with (1 # 10)%Q. qcross. }
  assert (fixedSize info / 2 == inject_Z j)%Q as Hs2.
  { rewrite Hs. unfold Qdiv. change (/ 2)%Q with (1 # 2)%Q. qcross. }
  revert Hx Hy Hw Hh Hxw Hyh.
  unfold fixedWindow, roundWindow, validWindow.
  cbn [fixedReadX fixedReadY fixedReadWidth fixedReadHeight readX readY readWidth readHeight].
  assert (Qmax 0 (inject_Z (fst cp) - fixedSize info / 2)
          == inject_Z (Z.max 0 (fst cp - j)))%Q as Ex.
  { rewrite Hs2, <- Qmax_inject_Z. apply Q.max_compat; [reflexivity|].
    unfold Zminus. rewrite inject_Z_plus, inject_Z_opp. reflexivity. }
  assert (Qmax 0 (inject_Z (snd cp) - fixedSize info / 2)
          == inject_Z (Z.max 0 (snd cp - j)))%Q as Ey.
  { rewrite Hs2, <- Qmax_inject_Z. apply Q.max_compat; [reflexivity|].
    unfold Zminus. rewrite inject_Z_plus, inject_Z_opp. reflexivity. }
  set (fx := Qmax 0 (inject_Z (fst cp) - fixedSize info / 2)) in *.
  set (fy := Qmax 0 (inject_Z (snd cp) - fixedSize info / 2)) in *.
  set (X := Z.max 0 (fst cp - j)) in *. set (Y := Z.max 0 (snd cp - j)) in *.
  assert (Qmin (inject_Z (width info) - fx) (fixedSize info)
          == inject_Z (Z.min (width info - X) (2 * j)))%Q as Ew.
  { rewrite <- Qmin_inject_Z. apply Q.min_compat; [|exact Hs].
    rewrite Ex. unfold Zminus. rewrite inject_Z_plus, inject_Z_opp. reflexivity. }
  assert (Qmin (inject_Z (height info) - fy) (fixedSize info)
          == inject_Z (Z.min (height info - Y) (2 * j)))%Q as Eh.
  { rewrite <- Qmin_inject_Z. apply Q.min_compat; [|exact Hs].
    rewrite Ey. unfold Zminus. rewrite inject_Z_plus, inject_Z_opp. reflexivity. }
  rewrite (Math_round_inject_Z _ _ Ex), (Math_round_inject_Z _ _ Ey),
          (Math_round_inject_Z _ _ Ew), (Math_round_inject_Z _ _ Eh).
  rewrite Ew, Eh. intros _ _ Hw Hh _ _.
  rewrite <- (Zlt_Qlt 0) in Hw. rewrite <- (Zlt_Qlt 0) in Hh.
  repeat split; try reflexivity; lia.
Qed.

(** Witness: the 100 x 100 raster, centre pixel (30, 30). *)
Lemma fallback_window_valid_on_multiples_of_20_witness :
  validWindow Demo.raster100 (roundWindow (fixedWindow Demo.raster100 (30, 30))).
Proof.
  apply (fallback_window_valid_on_multiples_of_20 Demo.raster100 (30, 30)).
  - exists 5. reflexivity.
  - reflexivity.
Defined.

(** ** More on the compositor *)

Lemma concat_pixels_length (f : nat -> list Z) (n : nat) :
  (forall i, length (f i) = 3%nat) ->
  length (concat (map f (seq 0 n))) = (n * 3)%nat.
Proof.
  intros Hf. induction n as [|n IH]; [reflexivity|].
  rewrite seq_S, map_app, concat_app, length_app, IH.
  simpl map. simpl concat. rewrite app_nil_r, Hf. lia.
Qed.

Lemma concat_pixels_lookup (f : nat -> list Z) (n i j : nat) :
  (forall i, length (f i) = 3%nat) ->
  (i < n)%nat -> (j < 3)%nat ->
  concat (map f (seq 0 n)) !! (i * 3 + j)%nat = f i !! j.
Proof.
  intros Hf. induction n as [|n IH]; intros Hi Hj; [lia|].
  rewrite seq_S, map_app, concat_app. simpl.
  destruct (decide (i = n)) as [->|Hne].
  - rewrite lookup_app_r by (rewrite concat_pixels_length by exact Hf; lia).
    rewrite concat_pixels_length by exact Hf.
    replace (n * 3 + j - n * 3)%nat with j by lia.
    rewrite app_nil_r. reflexivity.
  - rewrite lookup_app_l by (rewrite concat_pixels_length by exact Hf; lia).
    apply IH; lia.
Qed.

(** X10.  The loop computes the concatenation of the pixels' byte triples;
    a sample missing from a band array that is too short is stored
    as 0. *)
Theorem interleave_is_concatenation_of_pixels (w h : Z) (data1 data2 data3 : list Z) :
  interleaveRGB w h data1 data2 data3
    = concat (map (pixelBytes data1 data2 data3) (seq 0 (Z.to_nat (w * h)))) /\
  (forall i : nat, (length data1 <= i)%nat -> (i < Z.to_nat (w * h))%nat ->
     interleaveRGB w h data1 data2 data3 !! (3 * i)%nat = Some 0).
Proof.
  assert (forall i, length (pixelBytes data1 data2 data3 i) = 3%nat) as Hf by reflexivity.
  split.
  - set (n := Z.to_nat (w * h)).
    apply list_eq. intros p.
    destruct (decide (p < n * 3)%nat) as [Hp|Hp].
    + pose proof (Nat.div_mod_eq p 3) as Hdm.
      pose proof (Nat.mod_upper_bound p 3 ltac:(lia)) as Hm.
      set (i := (p / 3)%nat) in *. set (j := (p mod 3)%nat) in *.
      assert (i < n)%nat as Hi by lia.
      replace p with (i * 3 + j)%nat by lia.
      rewrite (concat_pixels_lookup _ n i j Hf Hi Hm).
      destruct (interleaveRGB_pixel data1 data2 data3 w h i Hi) as (H0 & H1 & H2).
      destruct j as [|[|[|j]]]; [| | |lia].
      * now rewrite Nat.add_0_r.
      * exact H1.
      * exact H2.
    + rewrite !lookup_ge_None_2; [reflexivity| |].
      * rewrite (concat_pixels_length _ n Hf). lia.
      * rewrite interleaveRGB_length. fold n. lia.
  - intros i Hlen Hi.
    destruct (interleaveRGB_pixel data1 data2 data3 w h i Hi) as (H0 & _).
    rewrite (Nat.mul_comm 3 i), H0.
    now rewrite (lookup_ge_None_2 data1 i Hlen).
Qed.

(** ** More on the cache *)

Lemma get_app_found (c l : TileCache) (k : TileKey) (v : Body) :
  TileMap.get c k = Some v -> TileMap.get (c ++ l) k = Some v.
Proof.
  induction c as [|[k' v'] c IH]; simpl; [discriminate|].
  destruct (decide (k' = k)); [trivial|exact IH].
Qed.

(** The size after the clamped branch stored a tile under a fresh key. *)
Lemma clamped_store_size (c : TileCache) (k : TileKey) (tile : Body) :
  TileMap.get c k = None ->
  TileMap.size (storeTile Clamped c k tile)
    = if 1000 <=? TileMap.size c then TileMap.size c else TileMap.size c + 1.
Proof.
  intros Hg. unfold storeTile. rewrite evictOldest_tail, (set_new_last _ _ tile Hg).
  unfold TileMap.size. rewrite length_app. simpl length.
  assert (length (tail (c ++ [(k, tile)])) = length c) as Htl.
  { destruct c as [|e c]; simpl; [reflexivity|]. rewrite length_app. simpl. lia. }
  destruct (1000 <? _) eqn:Hover; destruct (1000 <=? _) eqn:Hfull;
    rewrite ?Htl, ?length_app; simpl length;
    try apply Z.ltb_lt in Hover; try apply Z.ltb_ge in Hover;
    try apply Z.leb_le in Hfull; try apply Z.leb_gt in Hfull; lia.
Qed.

(** The fixed-window branch is entered from zoom 14 on only. *)
Lemma fallback_needs_high_zoom (info : RasterInfo) (z : Z) (c : Corners)
    (cp : option Pixel) (w : PixelWindow) :
  resolveWindow info z c cp = ReadWindow FixedFallback w -> 14 <= z.
Proof.
  unfold resolveWindow, highZoom.
  destruct (outOfBounds _ _); [discriminate|].
  destruct (tooLarge _ _).
  - destruct (14 <=? z) eqn:Hz; [|discriminate]. intros _. now apply Z.leb_le.
  - destruct (adjustedInvalid _); discriminate.
Qed.

Section CacheProperties.

Variable dataset : option RasterInfo.
Variable cornerPixels : TileKey -> option Corners.
Variable centerPixel : TileKey -> option Pixel.
Variable readBand : Z -> PixelWindow -> option (list Z).
Variable sharpEncode : list Z -> Z -> Z -> option (list Z).

#[local] Abbreviation handle :=
  (handleTile dataset cornerPixels centerPixel readBand sharpEncode).
#[local] Abbreviation serveAll :=
  (serve dataset cornerPixels centerPixel readBand sharpEncode).

(** What a request does to the cache, branch by branch. *)
Lemma handleTile_outcome (c : TileCache) (k : TileKey) :
  (handle c k = (sendEmptyTile, c)) \/
  (exists tile, TileMap.get c k = Some tile /\ handle c k = (sendTile HIT tile, c)) \/
  (exists p png,
     TileMap.get c k = None /\ (p = FixedFallback -> 14 <= tz k) /\
     handle c k = (sendTile MISS (Tile 256 256 png),
                   storeTile p c k (Tile 256 256 png))).
Proof.
  unfold handleTile, TileMap.has.
  destruct dataset as [info|]; [|now left].
  destruct (TileMap.get c k) as [cached|] eqn:Hg.
  { right; left. now exists cached. }
  destruct (cornerPixels k) as [corners|]; [|now left].
  destruct (resolveWindow _ _ _ _) as [|p w] eqn:Hres; [now left|].
  destruct (renderTile readBand sharpEncode w) as [tile|] eqn:Hr; [|now left].
  destruct (renderTile_size _ _ _ _ Hr) as [png ->].
  right; right. exists p, png. split; [reflexivity|]. split; [|reflexivity].
  intros ->. exact (fallback_needs_high_zoom _ _ _ _ _ Hres).
Qed.

Lemma serve_cons (c : TileCache) (k : TileKey) (ks : list TileKey) :
  serveAll c (k :: ks)
    = (fst (handle c k) :: fst (serveAll (snd (handle c k)) ks),
       snd (serveAll (snd (handle c k)) ks)).
Proof.
  simpl. destruct (handle c k) as [r c1]. cbn [fst snd].
  now destruct (serveAll c1 ks).
Qed.

(** One request changes the size of the cache by at most one entry,
    never downwards, and takes it above 1000 entries only from zoom 14
    on. *)
Lemma handleTile_size (c : TileCache) (k : TileKey) :
  TileMap.size c <= TileMap.size (snd (handle c k)) /\
  TileMap.size (snd (handle c k))
    <= Z.max (TileMap.size c) 1000 + (if 14 <=? tz k then 1 else 0).
Proof.
  destruct (handleTile_outcome c k) as [H|[(t & _ & H)|(p & png & Hg & Hz & H)]];
    rewrite H; cbn [snd]; try (destruct (14 <=? tz k); lia).
  destruct p.
  - rewrite (clamped_store_size _ _ _ Hg).
    destruct (1000 <=? TileMap.size c) eqn:Hfull;
      [apply Z.leb_le in Hfull|apply Z.leb_gt in Hfull];
      destruct (14 <=? tz k); lia.
  - rewrite (fallback_store_grows _ _ _ Hg).
    specialize (Hz eq_refl). apply Z.leb_le in Hz. rewrite Hz. lia.
Qed.

(** X12.  Over any sequence of requests the cache holds at most 1000 entries
    (or its initial size, if that was larger) plus one entry per
    request at zoom 14 or above. *)
Theorem cache_size_bound (c : TileCache) (ks : list TileKey) :
  TileMap.size (snd (serveAll c ks))
    <= Z.max (TileMap.size c) 1000
       + Z.of_nat (length (filter (fun k => 14 <=? tz k) ks)).
Proof.
  revert c. induction ks as [|k ks IH]; intros c; [simpl; lia|].
  rewrite serve_cons. cbn [snd].
  specialize (IH (snd (handle c k))).
  destruct (handleTile_size c k) as [_ Hstep].
  rewrite filter_cons.
  destruct (14 <=? tz k) eqn:Hz; destruct (decide _) as [Hd|Hd];
    simpl in Hd; simpl length; try lia; tauto.
Qed.

(** X13.  When every request is below zoom 14, a cache of at most 1000
    entries stays within 1000 entries. *)
Theorem cache_bounded_below_zoom_14 (c : TileCache) (ks : list TileKey) :
  TileMap.size c <= 1000 ->
  Forall (fun k => tz k < 14) ks ->
  TileMap.size (snd (serveAll c ks)) <= 1000.
Proof.
  revert c. induction ks as [|k ks IH]; intros c Hc Hks; [exact Hc|].
  rewrite serve_cons. cbn [snd].
  apply Forall_cons in Hks as [Hk Hks].
  apply IH; [|exact Hks].
  destruct (handleTile_size c k) as [_ Hstep].
  apply Z.leb_gt in Hk. rewrite Hk in Hstep. lia.
Qed.

(** X15.  A request leaves every cached tile in place and unchanged, except
    that a MISS on a cache of 1000 or more entries may drop the entry
    inserted first. *)
Theorem only_the_oldest_tile_is_dropped (c : TileCache) (k k0 : TileKey) (t : Body) :
  TileMap.get c k0 = Some t ->
  TileMap.get (snd (handle c k)) k0 = Some t \/
  (TileMap.firstKey c = Some k0 /\ 1000 <= TileMap.size c /\
   xCache (fst (handle c k)) = Some MISS /\
   TileMap.get (snd (handle c k)) k = Some (body (fst (handle c k)))).
Proof.
  intros Hg0.
  destruct (handleTile_outcome c k) as [H|[(t' & _ & H)|(p & png & Hg & _ & H)]];
    rewrite H; cbn [fst snd]; try (now left).
  pose proof (get_storeTile p c k (Tile 256 256 png) Hg) as Hnew.
  destruct p; unfold storeTile in *;
    rewrite ?evictOldest_tail, (set_new_last _ _ _ Hg) in *.
  - destruct (1000 <? _) eqn:Hover; [|left; now apply get_app_found].
    apply Z.ltb_lt in Hover. unfold TileMap.size in *.
    rewrite length_app in Hover. simpl length in Hover.
    destruct c as [|[k1 v1] c]; [discriminate|].
    simpl in Hg0. simpl tail.
    destruct (decide (k1 = k0)) as [->|Hne].
    + right. split; [reflexivity|]. split; [lia|]. split; [reflexivity|]. exact Hnew.
    + left. now apply get_app_found.
  - left. now apply get_app_found.
Qed.

(** X16.  From a cache that holds tiles of 256 x 256 only, the empty cache
    for one, every response carries an image of 256 x 256, placeholder
    or tile, and the cache goes on holding tiles of 256 x 256 only. *)
Theorem every_image_is_256_square (c : TileCache) (ks : list TileKey) :
  Forall (fun e => exists png, snd e = Tile 256 256 png) c ->
  Forall (fun r => body r = Placeholder 256 256 \/ exists png, body r = Tile 256 256 png)
         (fst (serveAll c ks)) /\
  Forall (fun e => exists png, snd e = Tile 256 256 png) (snd (serveAll c ks)).
Proof.
  revert c. induction ks as [|k ks IH]; intros c Hc.
  { split; [constructor|exact Hc]. }
  rewrite serve_cons. cbn [fst snd].
  assert ((body (fst (handle c k)) = Placeholder 256 256 \/
           exists png, body (fst (handle c k)) = Tile 256 256 png) /\
          Forall (fun e => exists png, snd e = Tile 256 256 png) (snd (handle c k)))
    as [Hr Hc1].
  { destruct (handleTile_outcome c k) as [H|[(t & Hg & H)|(p & png & Hg & _ & H)]];
      rewrite H; cbn [fst snd].
    - split; [now left|exact Hc].
    - split; [|exact Hc]. right. simpl.
      clear H. induction c as [|[k' v'] c IHc]; simpl in Hg; [discriminate|].
      apply Forall_cons in Hc as [Hv Hc].
      destruct (decide (k' = k)); [|now apply IHc].
      injection Hg as <-. exact Hv.
    - split; [right; now exists png|].
      assert (Forall (fun e => exists png, snd e = Tile 256 256 png)
                     (c ++ [(k, Tile 256 256 png)])) as Hnew.
      { apply Forall_app. split; [exact Hc|]. repeat constructor. now exists png. }
      destruct p; unfold storeTile; rewrite ?evictOldest_tail, (set_new_last _ _ _ Hg).
      + destruct (1000 <? _); [|exact Hnew].
        destruct (c ++ _) as [|e l]; [exact Hnew|].
        simpl. now apply Forall_cons in Hnew as [_ Hnew].
      + exact Hnew. }
  destruct (IH _ Hc1) as [Hrs Hcs].
  split; [now constructor|exact Hcs].
Qed.

End CacheProperties.

(** Witness: two requests at zoom 12 against the empty cache. *)
Lemma cache_bounded_below_zoom_14_witness :
  TileMap.size (snd (Demo.server 100 100 (Demo.square 10 10 30 30) (20, 20) []
                       [mkTileKey 12 0 0; mkTileKey 12 1 0])) <= 1000.
Proof.
  apply (cache_bounded_below_zoom_14 (Some (mkRasterInfo 100 100))).
  - unfold TileMap.size. simpl. lia.
  - repeat constructor; simpl; lia.
Defined.

(** Witness: a second key requested against a cache of one tile. *)
Lemma only_the_oldest_tile_is_dropped_witness :
  TileMap.get (snd (Demo.handler 100 100 (Demo.square 10 10 30 30) (20, 20)
                      [(mkTileKey 12 0 0, Tile 256 256 [])] (mkTileKey 12 1 0)))
              (mkTileKey 12 0 0) = Some (Tile 256 256 []) \/
  (TileMap.firstKey [(mkTileKey 12 0 0, Tile 256 256 [])] = Some (mkTileKey 12 0 0) /\
   1000 <= TileMap.size [(mkTileKey 12 0 0, Tile 256 256 [])] /\
   xCache (fst (Demo.handler 100 100 (Demo.square 10 10 30 30) (20, 20)
                  [(mkTileKey 12 0 0, Tile 256 256 [])] (mkTileKey 12 1 0))) = Some MISS /\
   TileMap.get (snd (Demo.handler 100 100 (Demo.square 10 10 30 30) (20, 20)
                       [(mkTileKey 12 0 0, Tile 256 256 [])] (mkTileKey 12 1 0)))
               (mkTileKey 12 1 0)
     = Some (body (fst (Demo.handler 100 100 (Demo.square 10 10 30 30) (20, 20)
                         [(mkTileKey 12 0 0, Tile 256 256 [])] (mkTileKey 12 1 0))))).
Proof.
  apply (only_the_oldest_tile_is_dropped (Some (mkRasterInfo 100 100))). reflexivity.
Defined.

(** Witness: three requests against the empty cache. *)
Lemma every_image_is_256_square_witness :
  Forall (fun r => body r = Placeholder 256 256 \/ exists png, body r = Tile 256 256 png)
         (fst (Demo.server 20 20 (Demo.square 0 0 15 15) (8, 8) [] (Demo.row 3))) /\
  Forall (fun e => exists png, snd e = Tile 256 256 png)
         (snd (Demo.server 20 20 (Demo.square 0 0 15 15) (8, 8) [] (Demo.row 3))).
Proof.
  apply (every_image_is_256_square (Some (mkRasterInfo 20 20))). constructor.
Defined.

(** ** Initialisation and the other routes *)

Section RouteProperties.

Variable cornerPixels : TileKey -> option Corners.
Variable centerPixel : TileKey -> option Pixel.
Variable readBand : Z -> PixelWindow -> option (list Z).
Variable sharpEncode : list Z -> Z -> Z -> option (list Z).
Variable sharpPreview : list Z -> Z -> Z -> Z -> Z -> option (list Z).

#[local] Abbreviation tiles := (tileRoute cornerPixels centerPixel readBand sharpEncode).
#[local] Abbreviation preview := (previewRoute readBand sharpPreview).

(** X17.  Once a call of [initGdalDataset] has returned a dataset with its
    info, every later call returns the same pair and leaves the globals
    alone, whatever has become of the file; tile requests are then
    served from that info. *)
Theorem initialisation_happens_once (tif tif' : Init.TifFile) (g g' : Init.Globals)
    (ds : Init.Dataset) (info : Init.ImageInfo) (c : TileCache) (k : TileKey) :
  Init.initGdalDataset tif g = (Some (ds, Some info), g') ->
  Init.initGdalDataset tif' g' = (Some (ds, Some info), g') /\
  tiles tif' g' c k
    = (handleTile (Some (rasterOf info)) cornerPixels centerPixel readBand sharpEncode c k, g').
Proof.
  intros Hinit.
  assert (Init.initGdalDataset tif' g' = (Some (ds, Some info), g')) as Hagain.
  { unfold Init.initGdalDataset in *.
    destruct (Init.gdalDataset g) as [d|] eqn:Hd.
    - injection Hinit as -> Hi ->. now rewrite Hd, Hi.
    - destruct tif as [| |d]; try discriminate.
      destruct (Init.geoTransform d); [|discriminate].
      injection Hinit as -> <- <-. reflexivity. }
  split; [exact Hagain|]. unfold tileRoute. now rewrite Hagain.
Qed.

(** X18.  A raster that opens but has no geotransform leaves the dataset set
    and the info unset.  No later call tries again, even when the file
    has been replaced: tile requests get the empty tile, the preview
    answers with status 500, and [/api/tif-info] answers [null]. *)
Theorem raster_without_geotransform_disables_tiles (ds : Init.Dataset)
    (tif' : Init.TifFile) (c : TileCache) (k : TileKey) :
  Init.geoTransform ds = None ->
  let g1 := Init.mkGlobals (Some ds) None in
  Init.initGdalDataset (Init.Opens ds) Init.start = (None, g1) /\
  Init.initGdalDataset tif' g1 = (Some (ds, None), g1) /\
  tiles tif' g1 c k = (sendEmptyTile, c, g1) /\
  preview tif' g1 = (PreviewError, g1) /\
  tifInfoRoute tif' g1 = (InfoJson None, g1).
Proof.
  intros Hgt. cbv zeta.
  unfold tileRoute, previewRoute, tifInfoRoute, Init.initGdalDataset. simpl.
  rewrite Hgt. repeat split; reflexivity.
Qed.

(** X19.  While the file is missing or unreadable nothing is remembered: each
    tile request is answered with the empty tile and leaves the cache
    alone, the preview and [/api/tif-info] answer with status 500, and
    the next request tries to open the file again. *)
Theorem failed_open_is_retried (tif : Init.TifFile) (g : Init.Globals)
    (ds : Init.Dataset) (c : TileCache) (k : TileKey) :
  Init.gdalDataset g = None ->
  tif = Init.Missing \/ tif = Init.Unreadable ->
  tiles tif g c k = (sendEmptyTile, c, g) /\
  preview tif g = (PreviewError, g) /\
  tifInfoRoute tif g = (InfoError, g) /\
  (forall gt, Init.geoTransform ds = Some gt ->
     Init.initGdalDataset (Init.Opens ds) (snd (tiles tif g c k))
       = (Some (ds, Some (Init.makeInfo ds gt)),
          Init.mkGlobals (Some ds) (Some (Init.makeInfo ds gt)))).
Proof.
  intros Hg Htif.
  unfold tileRoute, previewRoute, tifInfoRoute, Init.initGdalDataset.
  rewrite Hg. destruct Htif as [-> | ->]; cbn [fst snd handlerDataset handleTile];
    repeat split; try reflexivity;
    intros gt Hgt; now rewrite Hg, Hgt.
Qed.

End RouteProperties.

(** X20.  The projection string the tile handler passes to proj4 is never
    empty: it is the dataset's WKT when there is a non-empty one, and
    the UTM zone 22S definition otherwise. *)
Theorem projection_for_proj4_is_never_empty (ds : Init.Dataset) :
  Init.tifProjection (Init.getSafeProjection ds) <> ""%string /\
  (forall wkt, Init.srs ds = Init.Wkt wkt -> wkt <> ""%string ->
     Init.tifProjection (Init.getSafeProjection ds) = wkt) /\
  (Init.srs ds = Init.NoSrs \/ Init.srs ds = Init.WktFails \/
   Init.srs ds = Init.Wkt ""%string ->
   Init.tifProjection (Init.getSafeProjection ds) = Init.utm22s).
Proof.
  unfold Init.getSafeProjection, Init.tifProjection.
  destruct (Init.srs ds) as [|wkt|]; repeat split; try discriminate.
  - destruct wkt; discriminate.
  - intros w [= <-] Hne. destruct wkt; [contradiction|reflexivity].
  - intros [H|[H|H]]; try discriminate. injection H as ->. reflexivity.
Qed.

(** ** The size of the preview *)

Lemma Math_round_comp (q q' : Q) : (q == q')%Q -> Math_round q = Math_round q'.
Proof.
  intros H. unfold Math_round. apply Qfloor_comp. now rewrite H.
Qed.

(** One side scaled by [1024 / a] and rounded. *)
Lemma scaled_side (a b : Z) :
  0 < a -> 0 < b ->
  Math_round (inject_Z b * (inject_Z maxPreviewSize / inject_Z a))
    = (2048 * b + a) / (2 * a).
Proof.
  intros Ha Hb.
  destruct a as [|pa|pa]; try lia. destruct b as [|pb|pb]; try lia.
  unfold Math_round.
  rewrite (Qfloor_comp _ ((2048 * Z.pos pb + Z.pos pa) # (2 * pa))).
  - reflexivity.
  - unfold maxPreviewSize, Qeq, Qdiv, Qmult, Qplus, Qinv, inject_Z. simpl. lia.
Qed.

Lemma scale_of_wider (a b : Z) :
  0 < a -> 0 < b -> b <= a ->
  (Qmin (inject_Z maxPreviewSize / inject_Z a) (inject_Z maxPreviewSize / inject_Z b)
   == inject_Z maxPreviewSize / inject_Z a)%Q.
Proof.
  intros Ha Hb Hle. apply Q.min_l.
  destruct a as [|pa|pa]; try lia. destruct b as [|pb|pb]; try lia.
  unfold maxPreviewSize, Qle, Qdiv, Qmult, Qinv, inject_Z. simpl. lia.
Qed.

Lemma scale_of_taller (a b : Z) :
  0 < a -> 0 < b -> a <= b ->
  (Qmin (inject_Z maxPreviewSize / inject_Z a) (inject_Z maxPreviewSize / inject_Z b)
   == inject_Z maxPreviewSize / inject_Z b)%Q.
Proof.
  intros Ha Hb Hle. apply Q.min_r.
  destruct a as [|pa|pa]; try lia. destruct b as [|pb|pb]; try lia.
  unfold maxPreviewSize, Qle, Qdiv, Qmult, Qinv, inject_Z. simpl. lia.
Qed.

Lemma rounded_quotient_bounds (a b : Z) :
  0 < a -> 0 < b -> b <= a ->
  (2048 * a + a) / (2 * a) = 1024 /\
  0 <= (2048 * b + a) / (2 * a) <= 1024 /\
  (1 <= (2048 * b + a) / (2 * a) <-> a <= 2048 * b).
Proof.
  intros Ha Hb Hle.
  pose proof (Z.div_mod (2048 * a + a) (2 * a) ltac:(lia)) as E1.
  pose proof (Z.mod_pos_bound (2048 * a + a) (2 * a) ltac:(lia)) as B1.
  pose proof (Z.div_mod (2048 * b + a) (2 * a) ltac:(lia)) as E2.
  pose proof (Z.mod_pos_bound (2048 * b + a) (2 * a) ltac:(lia)) as B2.
  set (q1 := (2048 * a + a) / (2 * a)) in *. set (q2 := (2048 * b + a) / (2 * a)) in *.
  clearbody q1 q2.
  repeat split; nia.
Qed.

(** X21.  For a raster with positive width and height the preview's longer
    side is requested as exactly 1024 pixels, also when the raster is
    smaller than that, and the shorter side as
    [floor((2048 * short + long) / (2 * long))], which lies between 0
    and 1024 and is 0 exactly when the raster is more than 2048 times
    longer than wide (or wider than long). *)
Theorem preview_longer_side_is_1024 (w h : Z) :
  0 < w -> 0 < h ->
  let pw := fst (previewSize w h) in
  let ph := snd (previewSize w h) in
  Z.max pw ph = 1024 /\ 0 <= pw <= 1024 /\ 0 <= ph <= 1024 /\
  (h <= w -> pw = 1024 /\ ph = (2048 * h + w) / (2 * w) /\ (ph = 0 <-> 2048 * h < w)) /\
  (w <= h -> ph = 1024 /\ pw = (2048 * w + h) / (2 * h) /\ (pw = 0 <-> 2048 * w < h)).
Proof.
  intros Hw Hh. cbv zeta. unfold previewSize. cbn [fst snd].
  set (scale := Qmin _ _).
  assert (h <= w ->
          Math_round (inject_Z w * scale) = 1024 /\
          Math_round (inject_Z h * scale) = (2048 * h + w) / (2 * w)) as Hwide.
  { intros Hle.
    pose proof (scale_of_wider w h Hw Hh Hle) as Hs. fold scale in Hs.
    rewrite (Math_round_comp _ _ (Qmult_comp _ _ (Qeq_refl _) _ _ Hs)).
    rewrite (Math_round_comp (inject_Z h * scale) _ (Qmult_comp _ _ (Qeq_refl _) _ _ Hs)).
    rewrite !scaled_side by assumption.
    split; [|reflexivity]. apply (rounded_quotient_bounds w h); assumption. }
  assert (w <= h ->
          Math_round (inject_Z h * scale) = 1024 /\
          Math_round (inject_Z w * scale) = (2048 * w + h) / (2 * h)) as Htall.
  { intros Hle.
    pose proof (scale_of_taller w h Hw Hh Hle) as Hs. fold scale in Hs.
    rewrite (Math_round_comp _ _ (Qmult_comp _ _ (Qeq_refl _) _ _ Hs)).
    rewrite (Math_round_comp (inject_Z w * scale) _ (Qmult_comp _ _ (Qeq_refl _) _ _ Hs)).
    rewrite !scaled_side by assumption.
    split; [|reflexivity]. apply (rounded_quotient_bounds h w); assumption. }
  pose proof (proj1 (rounded_quotient_bounds w w Hw Hw (Z.le_refl w))) as Hsq.
  assert (h <= w \/ w <= h) as [Hle|Hle] by lia.
  - destruct (Hwide Hle) as [Ew Eh].
    destruct (rounded_quotient_bounds w h Hw Hh Hle) as (_ & Hb & Hone).
    rewrite Ew, Eh.
    split; [lia|]. split; [lia|]. split; [exact Hb|]. split.
    + intros _. split; [reflexivity|]. split; [reflexivity|].
      set (q := (2048 * h + w) / (2 * w)) in *. clearbody q. lia.
    + intros Hle'. assert (h = w) as -> by lia. rewrite Hsq.
      split; [reflexivity|]. split; [reflexivity|]. lia.
  - destruct (Htall Hle) as [Eh Ew].
    destruct (rounded_quotient_bounds h w Hh Hw Hle) as (_ & Hb & Hone).
    rewrite Ew, Eh.
    split; [lia|]. split; [exact Hb|]. split; [lia|]. split.
    + intros Hle'. assert (h = w) as -> by lia. rewrite Hsq.
      split; [reflexivity|]. split; [reflexivity|]. lia.
    + intros _. split; [reflexivity|]. split; [reflexivity|].
      set (q := (2048 * w + h) / (2 * h)) in *. clearbody q. lia.
Qed.

(** Witness: a raster of 4000 x 1000 pixels, previewed at 1024 x 256. *)
Lemma preview_longer_side_is_1024_witness :
  Z.max (fst (previewSize 4000 1000)) (snd (previewSize 4000 1000)) = 1024.
Proof.
  apply (preview_longer_side_is_1024 4000 1000); lia.
Defined.

(** ** The earlier tile handler *)

Lemma fold_left_ext_list (f g : list Z -> nat -> list Z) (l : list nat) (a : list Z) :
  (forall rgb i, f rgb i = g rgb i) -> fold_left f l a = fold_left g l a.
Proof.
  intros Hfg. revert a. induction l as [|i l IH]; intros a; simpl; [reflexivity|].
  now rewrite Hfg, IH.
Qed.

(** The earlier loop is the current loop run on saturated samples. *)
Lemma legacy_loop_saturates_first (data1 data2 data3 : list Z) :
  Legacy.interleave data1 data2 data3
    = interleaveRGB tileSize tileSize
        ((fun s => Z.min 255 (Z.max 0 s)) <$> data1)
        ((fun s => Z.min 255 (Z.max 0 s)) <$> data2)
        ((fun s => Z.min 255 (Z.max 0 s)) <$> data3).
Proof.
  unfold Legacy.interleave, interleaveRGB. apply fold_left_ext_list.
  intros rgb i. unfold Legacy.writePixel, writePixel. cbv zeta.
  assert (i `div` Legacy.tileSizeN * Legacy.tileSizeN + i `mod` Legacy.tileSizeN = i)%nat
    as ->.
  { pose proof (Nat.div_mod_eq i Legacy.tileSizeN). lia. }
  rewrite !list_lookup_fmap.
  destruct (data1 !! i), (data2 !! i), (data3 !! i); reflexivity.
Qed.

(** X22.  The earlier compositor saturates: each cell holds its band sample
    limited to 0..255 (0 for a missing sample), so a sample in that
    range is copied, a larger one becomes 255 and a negative one 0. *)
Theorem legacy_compositor_saturates (data1 data2 data3 : list Z) (i : nat) :
  Z.of_nat i < tileSize * tileSize ->
  let cell := fun v : option Z =>
                match v with Some s => Z.min 255 (Z.max 0 s) | None => 0 end in
  Z.of_nat (length (Legacy.interleave data1 data2 data3)) = 256 * 256 * 3 /\
  Legacy.interleave data1 data2 data3 !! (3 * i)%nat = Some (cell (data1 !! i)) /\
  Legacy.interleave data1 data2 data3 !! (3 * i + 1)%nat = Some (cell (data2 !! i)) /\
  Legacy.interleave data1 data2 data3 !! (3 * i + 2)%nat = Some (cell (data3 !! i)) /\
  (forall s, data1 !! i = Some s -> 255 <= s ->
     Legacy.interleave data1 data2 data3 !! (3 * i)%nat = Some 255).
Proof.
  intros Hi. cbv zeta. rewrite legacy_loop_saturates_first.
  set (sat := fun s : Z => Z.min 255 (Z.max 0 s)).
  assert (forall d : list Z,
            toUint8 ((sat <$> d) !! i)
            = match d !! i with Some s => Z.min 255 (Z.max 0 s) | None => 0 end) as Hcell.
  { intros d. rewrite list_lookup_fmap. destruct (d !! i) as [s|]; simpl; [|reflexivity].
    apply Z.mod_small. unfold sat. lia. }
  assert (i < Z.to_nat (tileSize * tileSize))%nat as Hi' by lia.
  destruct (interleaveRGB_pixel (sat <$> data1) (sat <$> data2) (sat <$> data3)
                                tileSize tileSize i Hi') as (E0 & E1 & E2).
  rewrite (Hcell data1) in E0. rewrite (Hcell data2) in E1. rewrite (Hcell data3) in E2.
  rewrite (Nat.mul_comm 3 i).
  split; [rewrite interleaveRGB_length; unfold tileSize; lia|].
  split; [exact E0|]. split; [exact E1|]. split; [exact E2|].
  intros s Hs Hbig. rewrite E0, Hs. f_equal. lia.
Qed.

(** Witness: pixel 0 of any tile. *)
Lemma legacy_compositor_saturates_witness :
  Legacy.interleave [300] [] [] !! (3 * 0)%nat
    = Some (match ([300] : list Z) !! 0%nat with
            | Some s => Z.min 255 (Z.max 0 s)
            | None => 0
            end).
Proof.
  apply (legacy_compositor_saturates [300] [] [] 0%nat). unfold tileSize. lia.
Defined.

Lemma legacy_origin_coordinate (x w z : Z) :
  0 <= z ->
  Qfloor (inject_Z x / Legacy.numTiles z * inject_Z w) = x * w / 2 ^ z.
Proof.
  intros Hz. rewrite Zdiv_Qdiv. apply Qfloor_comp.
  unfold Legacy.numTiles.
  assert (~ (2 ^ z == 0)%Q) as Hne by (apply Qpower_not_0; discriminate).
  rewrite (Zpower_Qpower 2 z Hz), inject_Z_mult. change (inject_Z 2) with 2%Q.
  field. exact Hne.
Qed.

(** X23.  In the earlier handler a tile with [0 <= x, y < 2^z] starts at the
    pixel [(floor(x * width / 2^z), floor(y * height / 2^z))], which
    lies inside the raster, so the tile is not answered with the black
    tile; a column index outside [0, 2^z) is. *)
Theorem legacy_tile_origin_in_raster (width height : Z) (k : TileKey) :
  0 <= tz k -> 0 < width -> 0 < height ->
  let origin := Legacy.tileOrigin width height k in
  origin = (tx k * width / 2 ^ tz k, ty k * height / 2 ^ tz k) /\
  (0 <= tx k < 2 ^ tz k -> 0 <= ty k < 2 ^ tz k ->
   0 <= fst origin < width /\ 0 <= snd origin < height /\
   Legacy.outsideRaster width height origin = false) /\
  (tx k < 0 \/ 2 ^ tz k <= tx k -> Legacy.outsideRaster width height origin = true).
Proof.
  intros Hz Hw Hh. cbv zeta. unfold Legacy.tileOrigin.
  rewrite !legacy_origin_coordinate by exact Hz.
  assert (0 < 2 ^ tz k) as Hpos by (apply Z.pow_pos_nonneg; lia).
  set (n := 2 ^ tz k) in *. clearbody n.
  split; [reflexivity|]. cbn [fst snd]. unfold Legacy.outsideRaster. cbn [fst snd].
  split.
  - intros Hx Hy.
    assert (0 <= tx k * width / n < width) as Bx.
    { split; [apply Z.div_pos; nia|apply Z.div_lt_upper_bound; nia]. }
    assert (0 <= ty k * height / n < height) as By.
    { split; [apply Z.div_pos; nia|apply Z.div_lt_upper_bound; nia]. }
    split; [exact Bx|]. split; [exact By|].
    rewrite !orb_false_iff. repeat split;
      try (apply Z.ltb_ge; lia); rewrite Z.geb_leb; apply Z.leb_gt; lia.
  - intros [Hx|Hx].
    + assert (tx k * width / n < 0) as Bx by (apply Z.div_lt_upper_bound; nia).
      apply Z.ltb_lt in Bx. now rewrite Bx.
    + assert (width <= tx k * width / n) as Bx by (apply Z.div_le_lower_bound; nia).
      rewrite Z.geb_leb. apply Z.leb_le in Bx. rewrite Bx.
      now rewrite !orb_true_r.
Qed.

(** Witness: tile 2/1/3 on a raster of 1000 x 800 pixels. *)
Lemma legacy_tile_origin_in_raster_witness :
  Legacy.tileOrigin 1000 800 (mkTileKey 2 1 3) = (1 * 1000 / 2 ^ 2, 3 * 800 / 2 ^ 2).
Proof.
  apply (legacy_tile_origin_in_raster 1000 800 (mkTileKey 2 1 3)); simpl; lia.
Defined.

(** ** Runs of the initialisation *)

(** Witness for the raster corners: the georeferenced demo raster. *)
Lemma bounds_are_the_raster_corners_witness :
  Geo.projToPixel (Geo.mkGeoTransform 500000 2 7800000 (-2))
    (Init.minX (Init.bounds (Init.makeInfo DemoData.geoRaster DemoData.utmTransform)))
    (Init.maxY (Init.bounds (Init.makeInfo DemoData.geoRaster DemoData.utmTransform)))
  = (0, 0).
Proof.
  apply (bounds_are_the_raster_corners DemoData.geoRaster DemoData.utmTransform
           (Geo.mkGeoTransform 500000 2 7800000 (-2)));
    [reflexivity | reflexivity | simpl; lra | simpl; lra].
Defined.

(** Witness: the demo raster is opened once, then the file goes away. *)
Lemma initialisation_happens_once_witness :
  Init.initGdalDataset Init.Missing
    (Init.mkGlobals (Some DemoData.geoRaster)
       (Some (Init.makeInfo DemoData.geoRaster DemoData.utmTransform)))
  = (Some (DemoData.geoRaster, Some (Init.makeInfo DemoData.geoRaster DemoData.utmTransform)),
     Init.mkGlobals (Some DemoData.geoRaster)
       (Some (Init.makeInfo DemoData.geoRaster DemoData.utmTransform))).
Proof.
  apply (initialisation_happens_once
           (Demo.constCorners (Demo.square 10 10 30 30)) (Demo.constCenter (20, 20))
           (Demo.readBand (mkRasterInfo 1000 800)) Demo.sharpEncode
           (Init.Opens DemoData.geoRaster) Init.Missing Init.start _ _ _
           [] (mkTileKey 12 0 0)).
  reflexivity.
Defined.

(** Witness: the raster without geotransform, then the file goes away. *)
Lemma raster_without_geotransform_disables_tiles_witness :
  tileRoute (Demo.constCorners (Demo.square 10 10 30 30)) (Demo.constCenter (20, 20))
            (Demo.readBand (mkRasterInfo 1000 800)) Demo.sharpEncode
            Init.Missing (Init.mkGlobals (Some DemoData.bareRaster) None)
            [] (mkTileKey 12 0 0)
  = (sendEmptyTile, [], Init.mkGlobals (Some DemoData.bareRaster) None).
Proof.
  apply (raster_without_geotransform_disables_tiles
           (Demo.constCorners (Demo.square 10 10 30 30)) (Demo.constCenter (20, 20))
           (Demo.readBand (mkRasterInfo 1000 800)) Demo.sharpEncode DemoData.noPreview
           DemoData.bareRaster Init.Missing [] (mkTileKey 12 0 0)).
  reflexivity.
Defined.

(** Witness: the file is missing at the first request. *)
Lemma failed_open_is_retried_witness :
  tifInfoRoute Init.Missing Init.start = (InfoError, Init.start).
Proof.
  apply (failed_open_is_retried
           (Demo.constCorners (Demo.square 10 10 30 30)) (Demo.constCenter (20, 20))
           (Demo.readBand (mkRasterInfo 1000 800)) Demo.sharpEncode DemoData.noPreview
           Init.Missing Init.start DemoData.geoRaster [] (mkTileKey 12 0 0)).
  - reflexivity.
  - left. reflexivity.
Defined.
